(** * DripJobs CEO dashboard: the ClickUp data updater

    A shallow embedding of [scripts/update-dashboard.js]: the task
    classification and the per-window counters of [computeStats], the
    "recent activity" list, and the run of [main] against an explicit world
    (environment, clock, upstream API, console, output file). *)

From Stdlib Require Import ZArith List String Ascii Bool Lia Permutation.
From Stdlib Require Import Floats.SpecFloat.
From Stdlib Require Import DecimalString DecimalN DecimalPos.
Import ListNotations.
Local Open Scope string_scope.
Local Open Scope Z_scope.

(** ** JavaScript values read from the upstream JSON *)

(** A field of a task as the script reads it: missing ([undefined]), JSON
    [null], or a string.  The API encodes timestamps as strings of epoch
    milliseconds. *)
Inductive jsval :=
| JUndefined
| JNull
| JString (s : string).

(** Numbers that hold timestamps.  Epoch milliseconds are integers far below
    2^53, where binary64 arithmetic and comparison are exact, so they are
    kept in [Z]; [INaN] is the Number [NaN]. *)
Inductive intnum :=
| INaN
| IVal (z : Z).

(** [ToBoolean] on a field, as in [isDone(t) && t.date_closed]. *)
Definition ToBoolean (v : jsval) : bool :=
  match v with
  | JUndefined | JNull => false
  | JString s => negb (s =? "")%string
  end.

(** White space stripped by the string-to-number conversion (the ASCII part
    of it: TAB, LF, VT, FF, CR, SP). *)
Definition is_space (c : ascii) : bool :=
  let n := N_of_ascii c in
  (((9 <=? n) && (n <=? 13)) || (n =? 32))%N.

Fixpoint trim_start (s : string) : string :=
  match s with
  | EmptyString => EmptyString
  | String c s' => if is_space c then trim_start s' else s
  end.

Fixpoint trim_end (s : string) : string :=
  match s with
  | EmptyString => EmptyString
  | String c s' =>
      let r := trim_end s' in
      if is_space c && (r =? "")%string then EmptyString else String c r
  end.

Definition trim (s : string) : string := trim_end (trim_start s).

(** A run of decimal digits, at least one. *)
Definition digits_to_number (s : string) : intnum :=
  match s with
  | EmptyString => INaN
  | _ =>
      match NilEmpty.uint_of_string s with
      | Some d => IVal (Z.of_N (N.of_uint d))
      | None => INaN
      end
  end.

Definition intnum_opp (x : intnum) : intnum :=
  match x with
  | INaN => INaN
  | IVal z => IVal (- z)
  end.

(** [Number(s)] for a string: the empty or blank string is 0, a signed run of
    decimal digits is its value, anything else is [NaN].  (Literals with a
    fraction, an exponent or a radix prefix are not timestamps of the API and
    are outside this model.) *)
Definition StringToNumber (s : string) : intnum :=
  match trim s with
  | EmptyString => IVal 0
  | String "+" body => digits_to_number body
  | String "-" body => intnum_opp (digits_to_number body)
  | t => digits_to_number t
  end.

(** [Number(v)]: [undefined] is [NaN], [null] is 0. *)
Definition Number (v : jsval) : intnum :=
  match v with
  | JUndefined => INaN
  | JNull => IVal 0
  | JString s => StringToNumber s
  end.

(** [x >= y]: false as soon as one side is [NaN]. *)
Definition num_ge (x y : intnum) : bool :=
  match x, y with
  | IVal a, IVal b => b <=? a
  | _, _ => false
  end.

(** [x - y] *)
Definition num_sub (x y : intnum) : intnum :=
  match x, y with
  | IVal a, IVal b => IVal (a - b)
  | _, _ => INaN
  end.

(** Decimal rendering of an integer Number, as template literals and
    [String(n)] give it. *)
Definition Z_to_string (z : Z) : string :=
  if z <? 0
  then String "-" (NilEmpty.string_of_uint (N.to_uint (Z.to_N (- z))))
  else NilEmpty.string_of_uint (N.to_uint (Z.to_N z)).

(** [String.prototype.toLowerCase], on the ASCII letters. *)
Definition lower_ascii (c : ascii) : ascii :=
  let n := N_of_ascii c in
  if ((65 <=? n) && (n <=? 90))%N then ascii_of_N (n + 32) else c.

Fixpoint toLowerCase (s : string) : string :=
  match s with
  | EmptyString => EmptyString
  | String c s' => String (lower_ascii c) (toLowerCase s')
  end.

(** [arr.includes(x)] where [x] is a string or [undefined] ([None]); an array
    of strings never includes [undefined]. *)
Definition Array_includes (arr : list string) (x : option string) : bool :=
  match x with
  | None => false
  | Some s => existsb (String.eqb s) arr
  end.

(** [arr.length] *)
Definition Array_length {A} (arr : list A) : Z := Z.of_nat (List.length arr).

(** ** binary64 arithmetic of the pass rate *)

Definition prec : Z := 53.
Definition emax : Z := 1024.

(** The Number of an integer. *)
Definition js_of_Z (z : Z) : spec_float := binary_normalize prec emax z 0 false.

Definition js_div : spec_float -> spec_float -> spec_float := SFdiv prec emax.
Definition js_mul : spec_float -> spec_float -> spec_float := SFmul prec emax.

(** [Math.round]: the integer nearest to [x], ties towards +infinity; zeros,
    infinities, [NaN] and integral values are returned as they are, and a
    result of zero keeps the sign of [x]. *)
Definition Math_round (x : spec_float) : spec_float :=
  match x with
  | S754_finite s m e =>
      if 0 <=? e then x
      else
        let sm := if s then Z.neg m else Z.pos m in
        let k := (sm + 2 ^ (- e - 1)) / 2 ^ (- e) in
        if k =? 0 then S754_zero s else js_of_Z k
  | _ => x
  end.

(** ** Tasks *)

Module TaskStatus.
Record t := mk { status : option string }.
End TaskStatus.

Module Task.
Record t := mk {
  name : jsval;
  status : option TaskStatus.t;
  date_created : jsval;
  date_closed : jsval;
  url : jsval
}.
End Task.

Definition DONE_STATUSES : list string :=
  ["complete"; "done"; "closed"; "shipped"].
Definition IN_PROGRESS_STATUSES : list string :=
  ["in progress"; "in review"; "in qa"; "dev"; "review"].

(** [t.status?.status] *)
Definition status_label (t : Task.t) : option string :=
  match Task.status t with
  | None => None
  | Some so => TaskStatus.status so
  end.

(** [t.status?.status?.toLowerCase()] *)
Definition status_lower (t : Task.t) : option string :=
  option_map toLowerCase (status_label t).

(** ** The aggregator *)

Module Stats.
Record t := mk {
  featuresShipped : Z;
  qaPassRate : spec_float;
  inProgress : Z;
  openBugs : Z;
  tasksClosed : Z
}.
End Stats.

Module BugStats.
Record t := mk {
  newThisWeek : Z;
  resolved : Z;
  open : Z;
  deferred : Z
}.
End BugStats.

Module Snapshot.
Record t := mk { stats : Stats.t; bugs : BugStats.t }.
End Snapshot.

Definition isDone (t : Task.t) : bool :=
  Array_includes DONE_STATUSES (status_lower t).

Definition isInProgress (t : Task.t) : bool :=
  Array_includes IN_PROGRESS_STATUSES (status_lower t).

Definition closedInRange (sinceMs : Z) (t : Task.t) : bool :=
  isDone t && num_ge (Number (Task.date_closed t)) (IVal sinceMs).

Definition createdInRange (sinceMs : Z) (t : Task.t) : bool :=
  num_ge (Number (Task.date_created t)) (IVal sinceMs).

Definition isDeferred (t : Task.t) : bool :=
  match status_lower t with
  | Some s => (s =? "deferred")%string
  | None => false
  end.

(** [Math.round((featuresShipped / totalShipped) * 100)] *)
Definition pass_rate (featuresShipped totalShipped : Z) : spec_float :=
  Math_round
    (js_mul (js_div (js_of_Z featuresShipped) (js_of_Z totalShipped))
            (js_of_Z 100)).

Definition computeStats (featureTasks bugTasks : list Task.t) (sinceMs : Z)
  : Snapshot.t :=
  let featuresShipped := Array_length (filter (closedInRange sinceMs) featureTasks) in
  let inProgress := Array_length (filter isInProgress featureTasks) in
  let tasksClosed :=
    Array_length (filter (closedInRange sinceMs) (featureTasks ++ bugTasks)) in
  let openBugs := Array_length (filter (fun t => negb (isDone t)) bugTasks) in
  let bugsNew := Array_length (filter (createdInRange sinceMs) bugTasks) in
  let bugsResolved := Array_length (filter (closedInRange sinceMs) bugTasks) in
  let bugsDeferred := Array_length (filter isDeferred bugTasks) in
  let bugsClosedInRange := Array_length (filter (closedInRange sinceMs) bugTasks) in
  let totalShipped := featuresShipped + bugsClosedInRange in
  let qaPassRate :=
    if 0 <? totalShipped
    then pass_rate featuresShipped totalShipped
    else js_of_Z 100 in
  Snapshot.mk
    (Stats.mk featuresShipped qaPassRate inProgress openBugs tasksClosed)
    (BugStats.mk bugsNew bugsResolved openBugs bugsDeferred).

(** ** Sorting, dates and the recent-activity list *)

Section Sort.
Context {A : Type}.
Variable comparefn : A -> A -> intnum.

(** The comparison [Array.prototype.sort] makes of two elements: a
    comparator result of [NaN] counts as +0, and [x] stays before [y] unless
    the result is positive. *)
Definition sorts_before (x y : A) : bool :=
  match comparefn x y with
  | INaN => true
  | IVal v => v <=? 0
  end.

Fixpoint sort_insert (x : A) (l : list A) : list A :=
  match l with
  | [] => [x]
  | y :: l' => if sorts_before x y then x :: l else y :: sort_insert x l'
  end.

(** [arr.sort(comparefn)].  The language fixes the result for a consistent
    comparator (sorted, and stable); a stable insertion sort computes it. *)
Fixpoint Array_sort (l : list A) : list A :=
  match l with
  | [] => []
  | x :: l' => sort_insert x (Array_sort l')
  end.
End Sort.

Fixpoint zeros (n : nat) : string :=
  match n with
  | O => EmptyString
  | S n' => String "0" (zeros n')
  end.

(** [String(n).padStart(width, "0")] for a non-negative integer. *)
Definition pad_num (width : nat) (n : Z) : string :=
  let s := Z_to_string n in
  zeros (width - String.length s) ++ s.

(** Year, month and day of a day number counted from 1970-01-01 in the
    proleptic Gregorian calendar. *)
Definition civil_from_days (days : Z) : Z * Z * Z :=
  let z := days + 719468 in
  let era := z / 146097 in
  let doe := z mod 146097 in
  let yoe := (doe - doe / 1460 + doe / 36524 - doe / 146096) / 365 in
  let doy := doe - (365 * yoe + yoe / 4 - yoe / 100) in
  let mp := (5 * doy + 2) / 153 in
  let d := doy - (153 * mp + 2) / 5 + 1 in
  let m := if mp <? 10 then mp + 3 else mp - 9 in
  let y := yoe + era * 400 + (if m <=? 2 then 1 else 0) in
  (y, m, d).

Definition msPerDay : Z := 24 * 60 * 60 * 1000.

Definition iso_year (y : Z) : string :=
  if (0 <=? y) && (y <=? 9999) then pad_num 4 y
  else String (if y <? 0 then "-"%char else "+"%char) (pad_num 6 (Z.abs y)).

(** The text of a valid time value. *)
Definition iso_format (ms : Z) : string :=
  let '(y, m, d) := civil_from_days (ms / msPerDay) in
  let t := ms mod msPerDay in
  iso_year y ++ "-" ++ pad_num 2 m ++ "-" ++ pad_num 2 d ++ "T"
    ++ pad_num 2 (t / 3600000) ++ ":" ++ pad_num 2 (t / 60000 mod 60) ++ ":"
    ++ pad_num 2 (t / 1000 mod 60) ++ "." ++ pad_num 3 (t mod 1000) ++ "Z".

(** [new Date(v).toISOString()]: [None] is the [RangeError] thrown for an
    invalid date ([NaN], or beyond 8.64e15 ms from the epoch). *)
Definition Date_toISOString (v : intnum) : option string :=
  match v with
  | INaN => None
  | IVal ms =>
      if (-8640000000000000 <=? ms) && (ms <=? 8640000000000000)
      then Some (iso_format ms)
      else None
  end.

Module RecentEntry.
Record t := mk {
  title : jsval;
  status : option string;
  closedAt : string;
  url : jsval
}.
End RecentEntry.

Record Error := mkError { message : string }.

Inductive result (A : Type) :=
| Ok (a : A)
| Throw (e : Error).
Arguments Ok {A} a.
Arguments Throw {A} e.

(** [arr.map(f)] for a callback that may throw: the first exception ends it. *)
Fixpoint Array_map_throwing {A B} (f : A -> result B) (l : list A)
  : result (list B) :=
  match l with
  | [] => Ok []
  | x :: l' =>
      match f x with
      | Throw e => Throw e
      | Ok y =>
          match Array_map_throwing f l' with
          | Throw e => Throw e
          | Ok ys => Ok (y :: ys)
          end
      end
  end.

(** The filter of the recent-activity list: [isDone(t) && t.date_closed]. *)
Definition isRecentCandidate (t : Task.t) : bool :=
  isDone t && ToBoolean (Task.date_closed t).

(** Its comparator: [Number(b.date_closed) - Number(a.date_closed)]. *)
Definition byClosedDesc (a b : Task.t) : intnum :=
  num_sub (Number (Task.date_closed b)) (Number (Task.date_closed a)).

(** The tasks kept: filtered, sorted, first five. *)
Definition recentTasks (allFeatureTasks allBugTasks : list Task.t)
  : list Task.t :=
  firstn 5
    (Array_sort byClosedDesc
       (filter isRecentCandidate (allFeatureTasks ++ allBugTasks))).

Definition recentEntry (t : Task.t) : result RecentEntry.t :=
  match Date_toISOString (Number (Task.date_closed t)) with
  | None => Throw (mkError "Invalid time value")
  | Some iso =>
      Ok (RecentEntry.mk (Task.name t) (status_label t) iso (Task.url t))
  end.

Definition recentActivity (allFeatureTasks allBugTasks : list Task.t)
  : result (list RecentEntry.t) :=
  Array_map_throwing recentEntry (recentTasks allFeatureTasks allBugTasks).

(** ** The output document *)

Module Report.
Record t := mk {
  lastUpdated : string;
  stats : Stats.t;
  bugs : BugStats.t;
  ranges : list (string * Snapshot.t);
  recentActivity : list RecentEntry.t
}.
End Report.

(** ** The world of one run *)

(** [process.env] *)
Record Env := mkEnv {
  CLICKUP_API_TOKEN : option string;
  CLICKUP_TEAM_ID : option string;
  CLICKUP_FEATURES_LIST_ID : option string;
  CLICKUP_BUGS_LIST_ID : option string
}.

(** What the upstream API answers to a GET: [fetch] rejects; a response that
    is not [ok], with its status and body text; a body that is not JSON; or
    the decoded object with its [tasks] member ([None] when it has none). *)
Inductive Response :=
| FetchRejects (e : Error)
| NotOk (status : Z) (body : string)
| InvalidJson (e : Error)
| Json (tasks : option (list Task.t)).

(** What a run is given. *)
Record Inputs := mkInputs {
  env : Env;
  (** successive readings of the clock, in epoch milliseconds *)
  clock : nat -> Z;
  (** local midnight of January 1st of the year an instant falls in *)
  year_start : Z -> Z;
  (** the upstream API, by URL *)
  upstream : string -> Response;
  (** when both fetches reject: whether the features one rejects first *)
  features_reject_first : bool;
  (** the error of [writeFileSync], if the file system refuses the write *)
  write_error : option Error
}.

Inductive ConsoleLine :=
| StdOut (line : string)
| StdErr (line : string).

Record Request := mkRequest { req_url : string; req_authorization : string }.

(** The output file: as the previous run left it, rewritten with a document,
    or left in an unknown state by a failed write. *)
Inductive FileState :=
| Untouched
| Written (data : Report.t)
| Damaged.

(** What a run has done so far. *)
Record State := mkState {
  clock_reads : nat;
  requests : list Request;
  console : list ConsoleLine;
  data_json : FileState;
  exit_code : option Z
}.

Definition initial : State := mkState 0 [] [] Untouched None.

(** Computations of the script: they read and extend the state and return a
    value or throw. *)
Definition M (A : Type) : Type := State -> result A * State.

Definition ret {A} (a : A) : M A := fun st => (Ok a, st).

Definition throw {A} (e : Error) : M A := fun st => (Throw e, st).

Definition bind {A B} (m : M A) (k : A -> M B) : M B :=
  fun st =>
    match m st with
    | (Ok a, st') => k a st'
    | (Throw e, st') => (Throw e, st')
    end.

Notation "x <- m ;; k" := (bind m (fun x => k))
  (at level 61, m at next level, right associativity).
Notation "m ;;; k" := (bind m (fun _ => k))
  (at level 61, right associativity).

Definition lift {A} (r : result A) : M A := fun st => (r, st).

(** [Promise.all([p, q])] on two async calls.  Each call runs up to its first
    suspension when it is made, so the effects of [p] precede those of [q];
    both run whatever the other does; the first rejection is the error. *)
Definition Promise_all2 {A B} (features_first : bool) (p : M A) (q : M B)
  : M (A * B) :=
  fun st =>
    let '(r1, st1) := p st in
    let '(r2, st2) := q st1 in
    match r1, r2 with
    | Ok a, Ok b => (Ok (a, b), st2)
    | Throw e, Ok _ => (Throw e, st2)
    | Ok _, Throw e => (Throw e, st2)
    | Throw e1, Throw e2 => (Throw (if features_first then e1 else e2), st2)
    end.

Definition console_log (line : string) : M unit :=
  fun st =>
    (Ok tt, mkState (clock_reads st) (requests st) (console st ++ [StdOut line])
                    (data_json st) (exit_code st)).

Definition console_error (line : string) : M unit :=
  fun st =>
    (Ok tt, mkState (clock_reads st) (requests st) (console st ++ [StdErr line])
                    (data_json st) (exit_code st)).

(** [process.exit(code)] *)
Definition process_exit (code : Z) (st : State) : State :=
  mkState (clock_reads st) (requests st) (console st) (data_json st) (Some code).

(** Objects as lists of entries in insertion order. *)
Fixpoint obj_set {V} (k : string) (v : V) (o : list (string * V))
  : list (string * V) :=
  match o with
  | [] => [(k, v)]
  | (k', v') :: o' =>
      if (k' =? k)%string then (k, v) :: o' else (k', v') :: obj_set k v o'
  end.

Fixpoint obj_get {V} (k : string) (o : list (string * V)) : option V :=
  match o with
  | [] => None
  | (k', v) :: o' => if (k' =? k)%string then Some v else obj_get k o'
  end.

(** [{ ...base, ...extra }] *)
Definition obj_spread {V} (base extra : list (string * V)) : list (string * V) :=
  fold_left (fun o kv => obj_set (fst kv) (snd kv) o) extra base.

(** The query of a URL whose parameters were [set] one by one (values that
    need no escaping). *)
Fixpoint query_string (params : list (string * string)) : string :=
  match params with
  | [] => ""
  | [(k, v)] => k ++ "=" ++ v
  | (k, v) :: rest => k ++ "=" ++ v ++ "&" ++ query_string rest
  end.

Definition url_of (path : string) (params : list (string * string)) : string :=
  let base := "https://api.clickup.com/api/v2" ++ path in
  match obj_spread [] params with
  | [] => base
  | ps => base ++ "?" ++ query_string ps
  end.

(** A string of the environment that is set and not empty. *)
Definition is_set (v : option string) : bool :=
  match v with
  | Some s => negb (s =? "")%string
  | None => false
  end.

Definition template (v : option string) : string :=
  match v with
  | Some s => s
  | None => "undefined"
  end.

Definition padEnd (width : nat) (s : string) : string :=
  s ++ string_of_list_ascii (repeat " "%char (width - String.length s)).

Section Run.
Variable I : Inputs.

Definition TOKEN : option string := CLICKUP_API_TOKEN (env I).
Definition TEAM_ID : option string := CLICKUP_TEAM_ID (env I).
Definition FEATURES_LIST : option string := CLICKUP_FEATURES_LIST_ID (env I).
Definition BUGS_LIST : option string := CLICKUP_BUGS_LIST_ID (env I).

(** [Date.now()] *)
Definition Date_now : M Z :=
  fun st =>
    (Ok (clock I (clock_reads st)),
     mkState (S (clock_reads st)) (requests st) (console st)
             (data_json st) (exit_code st)).

(** [fetch(url, { headers: { Authorization: TOKEN } })] *)
Definition fetch (url : string) : M Response :=
  fun st =>
    (Ok (upstream I url),
     mkState (clock_reads st)
             (requests st ++ [mkRequest url (template TOKEN)])
             (console st) (data_json st) (exit_code st)).

Definition clickup (path : string) (params : list (string * string))
  : M (option (list Task.t)) :=
  res <- fetch (url_of path params) ;;
  match res with
  | FetchRejects e => throw e
  | NotOk status body =>
      throw (mkError ("ClickUp API " ++ path ++ " → " ++ Z_to_string status
                        ++ ": " ++ body))
  | InvalidJson e => throw e
  | Json tasks => ret tasks
  end.

Definition daysAgo (n : Z) : M Z :=
  now <- Date_now ;;
  ret (now - n * 24 * 60 * 60 * 1000).

Definition startOfYear : M Z :=
  now <- Date_now ;;
  ret (year_start I now).

Definition getListTasks (listId : option string)
                        (extraParams : list (string * string))
  : M (list Task.t) :=
  if negb (is_set listId) then ret []
  else
    data <- clickup ("/list/" ++ template listId ++ "/task")
                    (obj_spread [("include_closed", "true")] extraParams) ;;
    ret (match data with
         | Some tasks => tasks
         | None => []
         end).

(** [writeFileSync(outPath, JSON.stringify(data, null, 2))] *)
Definition writeFileSync (data : Report.t) : M unit :=
  fun st =>
    match write_error I with
    | Some e =>
        (Throw e, mkState (clock_reads st) (requests st) (console st)
                          Damaged (exit_code st))
    | None =>
        (Ok tt, mkState (clock_reads st) (requests st) (console st)
                        (Written data) (exit_code st))
    end.

Definition summary_line (entry : string * Snapshot.t) : string :=
  let '(range, d) := entry in
  "   [" ++ padEnd 5 range ++ "] Features: "
    ++ Z_to_string (Stats.featuresShipped (Snapshot.stats d))
    ++ ", Tasks closed: " ++ Z_to_string (Stats.tasksClosed (Snapshot.stats d))
    ++ ", Bugs open: " ++ Z_to_string (Stats.openBugs (Snapshot.stats d)).

Fixpoint forEach {A} (f : A -> M unit) (l : list A) : M unit :=
  match l with
  | [] => ret tt
  | x :: l' => f x ;;; forEach f l'
  end.

(** The five windows: [ranges] of [main]. *)
Definition compute_ranges (allFeatureTasks allBugTasks : list Task.t)
  : M (list (string * Snapshot.t)) :=
  c1 <- daysAgo 1 ;;
  c7 <- daysAgo 7 ;;
  c30 <- daysAgo 30 ;;
  c90 <- daysAgo 90 ;;
  cy <- startOfYear ;;
  ret [("today", computeStats allFeatureTasks allBugTasks c1);
       ("7d", computeStats allFeatureTasks allBugTasks c7);
       ("30d", computeStats allFeatureTasks allBugTasks c30);
       ("90d", computeStats allFeatureTasks allBugTasks c90);
       ("ytd", computeStats allFeatureTasks allBugTasks cy)].

(** [new Date().toISOString()] *)
Definition now_iso : M string :=
  now <- Date_now ;;
  match Date_toISOString (IVal now) with
  | Some s => ret s
  | None => throw (mkError "Invalid time value")
  end.

(** The document [data] of [main], from the fetched collections. *)
Definition build_data (allFeatureTasks allBugTasks : list Task.t)
  : M (list (string * Snapshot.t) * Report.t) :=
  ranges <- compute_ranges allFeatureTasks allBugTasks ;;
  recent <- lift (recentActivity allFeatureTasks allBugTasks) ;;
  lastUpdated <- now_iso ;;
  match obj_get "7d" ranges with
  | None => throw (mkError "Cannot read properties of undefined (reading 'stats')")
  | Some r7 =>
      ret (ranges,
           Report.mk lastUpdated (Snapshot.stats r7) (Snapshot.bugs r7)
                     ranges recent)
  end.

(** The two fetches of [main]. *)
Definition fetch_all : M (list Task.t * list Task.t) :=
  Promise_all2 (features_reject_first I)
               (getListTasks FEATURES_LIST [])
               (getListTasks BUGS_LIST []).

(** [main] up to the document, before anything is written: the two
    fetches and the aggregation. *)
Definition fetch_and_aggregate : M (list (string * Snapshot.t) * Report.t) :=
  console_log "🔄 Fetching ClickUp data…" ;;;
  fetched <- fetch_all ;;
  let '(allFeatureTasks, allBugTasks) := fetched in
  console_log ("   Feature tasks fetched : "
                 ++ Z_to_string (Array_length allFeatureTasks)) ;;;
  console_log ("   Bug tasks fetched     : "
                 ++ Z_to_string (Array_length allBugTasks)) ;;;
  build_data allFeatureTasks allBugTasks.

Definition main : M unit :=
  built <- fetch_and_aggregate ;;
  let '(ranges, data) := built in
  writeFileSync data ;;;
  console_log "✅ data.json updated:" ;;;
  forEach (fun entry => console_log (summary_line entry)) ranges.

(** The module from top to bottom: the guard on the credentials, then
    [main().catch(...)]; a run that is not exited ends with status 0. *)
Definition script (st : State) : State :=
  if negb (is_set TOKEN) || negb (is_set TEAM_ID)
  then
    process_exit 1
      (snd (console_error
              "❌ Missing CLICKUP_API_TOKEN or CLICKUP_TEAM_ID. Check GitHub Secrets."
              st))
  else
    match main st with
    | (Ok _, st') => process_exit 0 st'
    | (Throw err, st') =>
        process_exit 1
          (snd (console_error ("❌ Update failed: " ++ message err) st'))
    end.
End Run.

(** ** The earlier revision of the script

    The second source file is the script before the per-range statistics:
    its [main] computes the same counters inline, for the one cutoff
    [daysAgo(7)]. *)

Module Part000.
(** [stats] and [bugs] of the document, from the fetched collections. *)
Definition main_stats (allFeatureTasks allBugTasks : list Task.t)
                      (sevenDaysAgo : Z) : Stats.t * BugStats.t :=
  let completedRecently t :=
    isDone t && num_ge (Number (Task.date_closed t)) (IVal sevenDaysAgo) in
  let featuresShipped := Array_length (filter completedRecently allFeatureTasks) in
  let inProgress := Array_length (filter isInProgress allFeatureTasks) in
  let tasksClosed :=
    Array_length (filter completedRecently (allFeatureTasks ++ allBugTasks)) in
  let openBugs := Array_length (filter (fun t => negb (isDone t)) allBugTasks) in
  let bugsNew :=
    Array_length
      (filter (fun t => num_ge (Number (Task.date_created t)) (IVal sevenDaysAgo))
              allBugTasks) in
  let bugsResolved := Array_length (filter completedRecently allBugTasks) in
  let bugsDeferred := Array_length (filter isDeferred allBugTasks) in
  let bugsClosedThisWeek := Array_length (filter completedRecently allBugTasks) in
  let totalShipped := featuresShipped + bugsClosedThisWeek in
  let qaPassRate :=
    if 0 <? totalShipped
    then Math_round
           (js_mul (js_div (js_of_Z featuresShipped) (js_of_Z totalShipped))
                   (js_of_Z 100))
    else js_of_Z 100 in
  (Stats.mk featuresShipped qaPassRate inProgress openBugs tasksClosed,
   BugStats.mk bugsNew bugsResolved openBugs bugsDeferred).
End Part000.

(** ** The specification's reading of the counters *)

(** Rounding a percentage [100 * num / den] to the nearest integer, halves
    up, in exact arithmetic. *)
Definition round_half_up_percent (num den : Z) : Z :=
  (200 * num + den) / (2 * den).

(** The pass rate as the specification words it. *)
Definition spec_qaPassRate (featuresShipped bugsClosedInRange : Z) : spec_float :=
  if 0 <? featuresShipped + bugsClosedInRange
  then js_of_Z (round_half_up_percent featuresShipped
                  (featuresShipped + bugsClosedInRange))
  else js_of_Z 100.

(** "The pass rate is 100 exactly when nothing was closed in the window." *)
Definition hundred_iff_empty_window (featureTasks bugTasks : list Task.t)
                                    (sinceMs : Z) : Prop :=
  let s := computeStats featureTasks bugTasks sinceMs in
  Stats.qaPassRate (Snapshot.stats s) = js_of_Z 100 <->
  Stats.featuresShipped (Snapshot.stats s) + BugStats.resolved (Snapshot.bugs s) = 0.

(** A task with a status label and a closure field; [other] holds its name,
    creation field and URL. *)
Definition labelled (other : jsval * jsval * jsval) (label : string)
                    (closed : jsval) : Task.t :=
  let '(name, created, url) := other in
  Task.mk name (Some (TaskStatus.mk (Some label))) created closed url.

(** A task closed at [ms] with status "done". *)
Definition done_at (ms : Z) : Task.t :=
  labelled (JUndefined, JUndefined, JUndefined) "done" (JString (Z_to_string ms)).

(** JavaScript arrays hold fewer than 2^32 elements. *)
Definition array_sized {A} (l : list A) : Prop := Array_length l < 2 ^ 32.

(** The closure field holds a number: what the comparator of the sort needs
    to be consistent. *)
Definition numeric_closure (t : Task.t) : Prop :=
  Number (Task.date_closed t) <> INaN.

(** Closure time of a task whose closure field is numeric. *)
Definition closed_ms (t : Task.t) : Z :=
  match Number (Task.date_closed t) with
  | IVal z => z
  | INaN => 0
  end.

(** Descending by closure time. *)
Fixpoint closed_descending (l : list Task.t) : Prop :=
  match l with
  | [] => True
  | t :: l' => (forall u, In u l' -> closed_ms u <= closed_ms t) /\ closed_descending l'
  end.

Fixpoint all_chars (p : ascii -> bool) (s : string) : bool :=
  match s with
  | EmptyString => true
  | String c s' => p c && all_chars p s'
  end.

Definition is_digit (c : ascii) : bool :=
  let n := N_of_ascii c in ((48 <=? n) && (n <=? 57))%N.

(** What a shifted mantissa is at most worth: the next integer when bits were
    lost. *)
Definition shr_up (mrs : shr_record) : Z :=
  shr_m mrs + (if shr_r mrs || shr_s mrs then 1 else 0).

Definition loc_up (m : Z) (l : location) : Z :=
  m + match l with loc_Exact => 0 | loc_Inexact _ => 1 end.

(** The counters of a snapshot are non-negative integers and its pass rate a
    whole percentage. *)
Definition snapshot_counts_ok (s : Snapshot.t) : Prop :=
  0 <= Stats.featuresShipped (Snapshot.stats s) /\
  0 <= Stats.inProgress (Snapshot.stats s) /\
  0 <= Stats.openBugs (Snapshot.stats s) /\
  0 <= Stats.tasksClosed (Snapshot.stats s) /\
  0 <= BugStats.newThisWeek (Snapshot.bugs s) /\
  0 <= BugStats.resolved (Snapshot.bugs s) /\
  0 <= BugStats.open (Snapshot.bugs s) /\
  0 <= BugStats.deferred (Snapshot.bugs s) /\
  exists k, 0 <= k <= 100 /\ Stats.qaPassRate (Snapshot.stats s) = js_of_Z k.

(** Every list the upstream API returns leaves room for the other one in an
    array. *)
Definition upstream_sized (I : Inputs) : Prop :=
  forall url tasks, upstream I url = Json (Some tasks) -> Array_length tasks < 2 ^ 31.

(** An entry of the recent-activity list is its task reduced to four fields. *)
Definition entry_of (t : Task.t) (e : RecentEntry.t) : Prop :=
  RecentEntry.title e = Task.name t /\
  RecentEntry.status e = status_label t /\
  Date_toISOString (Number (Task.date_closed t)) = Some (RecentEntry.closedAt e) /\
  RecentEntry.url e = Task.url t.

Definition window_names : list string := ["today"; "7d"; "30d"; "90d"; "ytd"].

(** The cutoffs [main] passes for the five windows, from a clock that was
    read [n] times before. *)
Definition window_cutoffs (I : Inputs) (n : nat) : list Z :=
  [clock I n - 1 * 24 * 60 * 60 * 1000;
   clock I (S n) - 7 * 24 * 60 * 60 * 1000;
   clock I (S (S n)) - 30 * 24 * 60 * 60 * 1000;
   clock I (S (S (S n))) - 90 * 24 * 60 * 60 * 1000;
   year_start I (clock I (S (S (S (S n)))))].

(** The closure field is missing, or it is [null] and the cutoff is after
    the epoch. *)
Definition closure_absent (sinceMs : Z) (t : Task.t) : Prop :=
  Task.date_closed t = JUndefined \/ (Task.date_closed t = JNull /\ 0 < sinceMs).

(** "A done task without a closure timestamp is never in range." *)
Definition absent_closure_never_in_range (t : Task.t) (sinceMs : Z) : Prop :=
  isDone t = true ->
  Task.date_closed t = JUndefined \/ Task.date_closed t = JNull ->
  closedInRange sinceMs t = false.

(** Computations that leave the output file and the exit status alone. *)
Definition keeps_file {A} (m : M A) : Prop :=
  forall st, data_json (snd (m st)) = data_json st /\
             exit_code (snd (m st)) = exit_code st.

(** Inputs for examples: both credentials and the features list configured,
    the bugs list unset, and an upstream that answers every request with
    [answer]. *)
Definition example_inputs (answer : Response) : Inputs :=
  mkInputs (mkEnv (Some "pk_token") (Some "9001") (Some "42") None)
           (fun n => 1700000000000 + Z.of_nat n)
           (fun _ => 1672531200000)
           (fun _ => answer)
           true None.

(** ** The store behind [computeStats]

    [computeStats] receives references: the two collections are arrays of
    task objects that [main] passes to all five calls, and the status lists
    are arrays of the module.  Here the objects live in a store, the
    operations of [computeStats] read and allocate in it, and nothing in the
    types keeps them from writing. *)

Definition loc := nat.

Inductive cell :=
| CTask (t : Task.t)
| CArray (elems : list loc)
| CStrings (elems : list string).

Definition Heap := list cell.

(** Computations on the store; [None] is a [TypeError]. *)
Definition HM (A : Type) : Type := Heap -> option (A * Heap).

Definition hret {A} (a : A) : HM A := fun h => Some (a, h).

Definition hbind {A B} (m : HM A) (k : A -> HM B) : HM B :=
  fun h =>
    match m h with
    | Some (a, h') => k a h'
    | None => None
    end.

Notation "x <~ m ;; k" := (hbind m (fun x => k))
  (at level 61, m at next level, right associativity).

Definition read_task (t : loc) : HM Task.t :=
  fun h =>
    match nth_error h t with
    | Some (CTask x) => Some (x, h)
    | _ => None
    end.

Definition read_array (a : loc) : HM (list loc) :=
  fun h =>
    match nth_error h a with
    | Some (CArray refs) => Some (refs, h)
    | _ => None
    end.

Definition read_strings (a : loc) : HM (list string) :=
  fun h =>
    match nth_error h a with
    | Some (CStrings strs) => Some (strs, h)
    | _ => None
    end.

(** A new object, at the next free location. *)
Definition alloc (c : cell) : HM loc :=
  fun h => Some (List.length h, (h ++ [c])%list).

(** [a.length] *)
Definition Array_length_h (a : loc) : HM Z :=
  refs <~ read_array a ;;
  hret (Array_length refs).

(** [a[i]] *)
Definition read_elem (a : loc) (i : nat) : HM loc :=
  refs <~ read_array a ;;
  match nth_error refs i with
  | Some r => hret r
  | None => fun _ => None
  end.

(** The loop of [a.filter(pred)] over the indices from [i], [n] of them:
    each element is read when its turn comes and handed to the callback. *)
Fixpoint filter_from (pred : loc -> HM bool) (a : loc) (i n : nat)
  : HM (list loc) :=
  match n with
  | O => hret []
  | S n' =>
      r <~ read_elem a i ;;
      keep <~ pred r ;;
      kept <~ filter_from pred a (S i) n' ;;
      hret (if keep then r :: kept else kept)
  end.

(** [a.filter(pred)]: the length is read first, the result is a new array. *)
Definition Array_filter_h (pred : loc -> HM bool) (a : loc) : HM loc :=
  refs <~ read_array a ;;
  kept <~ filter_from pred a 0 (List.length refs) ;;
  alloc (CArray kept).

(** [[...a, ...b]] *)
Definition Array_spread_h (a b : loc) : HM loc :=
  ra <~ read_array a ;;
  rb <~ read_array b ;;
  alloc (CArray (ra ++ rb)).

(** [arr.includes(x)] on an array of the module. *)
Definition Array_includes_h (arr : loc) (x : option string) : HM bool :=
  strs <~ read_strings arr ;;
  hret (Array_includes strs x).

(** Where the module keeps its two status lists. *)
Definition DONE_STATUSES_loc : loc := 0%nat.
Definition IN_PROGRESS_STATUSES_loc : loc := 1%nat.

(** The store once the module's constants are evaluated. *)
Definition module_heap : Heap :=
  [CStrings DONE_STATUSES; CStrings IN_PROGRESS_STATUSES].

(** [t.status?.status?.toLowerCase()] *)
Definition status_lower_h (t : loc) : HM (option string) :=
  x <~ read_task t ;;
  hret (status_lower x).

Definition isDone_h (t : loc) : HM bool :=
  l <~ status_lower_h t ;;
  Array_includes_h DONE_STATUSES_loc l.

Definition isInProgress_h (t : loc) : HM bool :=
  l <~ status_lower_h t ;;
  Array_includes_h IN_PROGRESS_STATUSES_loc l.

(** [isDone(t) && Number(t.date_closed) >= sinceMs] *)
Definition closedInRange_h (sinceMs : Z) (t : loc) : HM bool :=
  d <~ isDone_h t ;;
  if d
  then x <~ read_task t ;;
       hret (num_ge (Number (Task.date_closed x)) (IVal sinceMs))
  else hret false.

Definition createdInRange_h (sinceMs : Z) (t : loc) : HM bool :=
  x <~ read_task t ;;
  hret (num_ge (Number (Task.date_created x)) (IVal sinceMs)).

Definition notDone_h (t : loc) : HM bool :=
  d <~ isDone_h t ;;
  hret (negb d).

Definition isDeferred_h (t : loc) : HM bool :=
  l <~ status_lower_h t ;;
  hret (match l with
        | Some s => (s =? "deferred")%string
        | None => false
        end).

(** [computeStats] on references. *)
Definition computeStats_h (featureTasks bugTasks : loc) (sinceMs : Z)
  : HM Snapshot.t :=
  a1 <~ Array_filter_h (closedInRange_h sinceMs) featureTasks ;;
  featuresShipped <~ Array_length_h a1 ;;
  a2 <~ Array_filter_h isInProgress_h featureTasks ;;
  inProgress <~ Array_length_h a2 ;;
  all <~ Array_spread_h featureTasks bugTasks ;;
  a3 <~ Array_filter_h (closedInRange_h sinceMs) all ;;
  tasksClosed <~ Array_length_h a3 ;;
  a4 <~ Array_filter_h notDone_h bugTasks ;;
  openBugs <~ Array_length_h a4 ;;
  a5 <~ Array_filter_h (createdInRange_h sinceMs) bugTasks ;;
  bugsNew <~ Array_length_h a5 ;;
  a6 <~ Array_filter_h (closedInRange_h sinceMs) bugTasks ;;
  bugsResolved <~ Array_length_h a6 ;;
  a7 <~ Array_filter_h isDeferred_h bugTasks ;;
  bugsDeferred <~ Array_length_h a7 ;;
  a8 <~ Array_filter_h (closedInRange_h sinceMs) bugTasks ;;
  bugsClosedInRange <~ Array_length_h a8 ;;
  let totalShipped := featuresShipped + bugsClosedInRange in
  let qaPassRate :=
    if 0 <? totalShipped
    then Math_round
           (js_mul (js_div (js_of_Z featuresShipped) (js_of_Z totalShipped))
                   (js_of_Z 100))
    else js_of_Z 100 in
  hret (Snapshot.mk
          (Stats.mk featuresShipped qaPassRate inProgress openBugs tasksClosed)
          (BugStats.mk bugsNew bugsResolved openBugs bugsDeferred)).

(** The calls [main] makes for its windows, one after the other on the same
    two references. *)
Fixpoint windows_h (featureTasks bugTasks : loc) (cutoffs : list Z)
  : HM (list Snapshot.t) :=
  match cutoffs with
  | [] => hret []
  | sinceMs :: rest =>
      s <~ computeStats_h featureTasks bugTasks sinceMs ;;
      ss <~ windows_h featureTasks bugTasks rest ;;
      hret (s :: ss)
  end.

(** The store holds at [a] an array of references to the tasks [tasks]. *)
Definition holds_tasks (h : Heap) (a : loc) (tasks : list Task.t) : Prop :=
  exists refs,
    nth_error h a = Some (CArray refs) /\
    Forall2 (fun r t => nth_error h r = Some (CTask t)) refs tasks.

(** The status lists of the module are in place. *)
Definition constants_loaded (h : Heap) : Prop :=
  nth_error h DONE_STATUSES_loc = Some (CStrings DONE_STATUSES) /\
  nth_error h IN_PROGRESS_STATUSES_loc = Some (CStrings IN_PROGRESS_STATUSES).

(** A callback that reads the task it is given and leaves the store as it
    is. *)
Definition reads (pred : loc -> HM bool) (p : Task.t -> bool) : Prop :=
  forall h r t,
    constants_loaded h -> nth_error h r = Some (CTask t) ->
    pred r h = Some (p t, h).

(** ** Notions for further statements *)

(** A task with its status label rewritten by [f]. *)
Definition relabel (f : string -> string) (t : Task.t) : Task.t :=
  Task.mk (Task.name t)
          (match Task.status t with
           | None => None
           | Some so => Some (TaskStatus.mk (option_map f (TaskStatus.status so)))
           end)
          (Task.date_created t) (Task.date_closed t) (Task.url t).

(** The request [getListTasks] sends for a list, if the list is configured. *)
Definition list_request (I : Inputs) (listId : option string) : list Request :=
  if is_set listId
  then [mkRequest (url_of ("/list/" ++ template listId ++ "/task")
                          [("include_closed", "true")])
                  (template (TOKEN I))]
  else [].

(** The same run with another value of [CLICKUP_TEAM_ID]. *)
Definition with_team_id (I : Inputs) (v : option string) : Inputs :=
  mkInputs (mkEnv (CLICKUP_API_TOKEN (env I)) v
                  (CLICKUP_FEATURES_LIST_ID (env I))
                  (CLICKUP_BUGS_LIST_ID (env I)))
           (clock I) (year_start I) (upstream I)
           (features_reject_first I) (write_error I).

(** The lines a successful run prints, from the two fetched collections and
    the ranges of the document. *)
Definition success_lines (F B : list Task.t) (ranges : list (string * Snapshot.t))
  : list ConsoleLine :=
  ([StdOut "🔄 Fetching ClickUp data…";
    StdOut ("   Feature tasks fetched : " ++ Z_to_string (Array_length F));
    StdOut ("   Bug tasks fetched     : " ++ Z_to_string (Array_length B));
    StdOut "✅ data.json updated:"]
   ++ map (fun entry => StdOut (summary_line entry)) ranges)%list.

(** The five clock readings behind the cutoffs, from reading [n] on, lie
    within a day of each other. *)
Definition cutoffs_within_a_day (I : Inputs) (n : nat) : Prop :=
  forall i j, (n <= i < n + 5)%nat -> (n <= j < n + 5)%nat ->
              clock I i - clock I j <= msPerDay.

(** The counters of [a] that depend on the cutoff are at most those of [b]. *)
Definition counts_within (a b : Snapshot.t) : Prop :=
  Stats.featuresShipped (Snapshot.stats a) <= Stats.featuresShipped (Snapshot.stats b) /\
  Stats.tasksClosed (Snapshot.stats a) <= Stats.tasksClosed (Snapshot.stats b) /\
  BugStats.resolved (Snapshot.bugs a) <= BugStats.resolved (Snapshot.bugs b) /\
  BugStats.newThisWeek (Snapshot.bugs a) <= BugStats.newThisWeek (Snapshot.bugs b).

(** The snapshot of two empty collections. *)
Definition empty_snapshot : Snapshot.t :=
  Snapshot.mk (Stats.mk 0 (js_of_Z 100) 0 0 0) (BugStats.mk 0 0 0 0).

(** * Properties *)

(** ** Decimal strings *)

Lemma string_of_uint_digits d :
  all_chars is_digit (NilEmpty.string_of_uint d) = true.
Proof. induction d; simpl; auto. Qed.

Lemma is_digit_not_space c : is_digit c = true -> is_space c = false.
Proof.
  unfold is_digit, is_space. intros H.
  apply andb_true_iff in H as [H1 H2].
  apply N.leb_le in H1. apply N.leb_le in H2.
  apply orb_false_iff. split.
  - apply andb_false_iff. right. apply N.leb_gt. lia.
  - apply N.eqb_neq. lia.
Qed.

Lemma trim_start_digits s : all_chars is_digit s = true -> trim_start s = s.
Proof.
  destruct s as [|c s]; simpl; auto. intros H.
  apply andb_true_iff in H as [H _]. now rewrite (is_digit_not_space _ H).
Qed.

Lemma trim_end_digits s : all_chars is_digit s = true -> trim_end s = s.
Proof.
  induction s as [|c s IH]; simpl; auto. intros H.
  apply andb_true_iff in H as [H1 H2].
  rewrite (is_digit_not_space _ H1), (IH H2). reflexivity.
Qed.

Lemma trim_digits s : all_chars is_digit s = true -> trim s = s.
Proof.
  intros H. unfold trim. rewrite (trim_start_digits _ H).
  now apply trim_end_digits.
Qed.

Lemma string_of_N_nonempty n :
  NilEmpty.string_of_uint (N.to_uint n) <> EmptyString.
Proof.
  destruct n as [|p]; simpl; [discriminate|].
  pose proof (DecimalPos.Unsigned.to_uint_nonnil p) as H.
  destruct (Pos.to_uint p); simpl; try discriminate. congruence.
Qed.

Lemma digits_to_number_N n :
  digits_to_number (NilEmpty.string_of_uint (N.to_uint n)) = IVal (Z.of_N n).
Proof.
  unfold digits_to_number.
  pose proof (string_of_N_nonempty n) as Hne.
  destruct (NilEmpty.string_of_uint (N.to_uint n)) eqn:E; [congruence|].
  rewrite <- E, NilEmpty.usu, DecimalN.Unsigned.of_to. reflexivity.
Qed.

Lemma StringToNumber_digits s :
  all_chars is_digit s = true -> s <> EmptyString ->
  StringToNumber s = digits_to_number s.
Proof.
  intros H Hne. unfold StringToNumber. rewrite (trim_digits _ H).
  destruct s as [|c s]; [congruence|].
  simpl in H. apply andb_true_iff in H as [H _].
  destruct c as [[] [] [] [] [] [] [] []]; try reflexivity; discriminate.
Qed.

(** A timestamp printed in decimal reads back as itself. *)
Lemma Number_Z_to_string z : Number (JString (Z_to_string z)) = IVal z.
Proof.
  simpl. unfold Z_to_string. destruct (z <? 0) eqn:Hz.
  - apply Z.ltb_lt in Hz.
    set (n := Z.to_N (- z)).
    assert (Hs : all_chars is_digit (NilEmpty.string_of_uint (N.to_uint n)) = true)
      by apply string_of_uint_digits.
    unfold StringToNumber, trim. cbn [trim_start].
    change (is_space "-") with false. cbn iota.
    cbn [trim_end]. rewrite (trim_end_digits _ Hs).
    change (is_space "-") with false. cbn [andb].
    rewrite digits_to_number_N. simpl. f_equal. subst n. lia.
  - apply Z.ltb_ge in Hz.
    rewrite StringToNumber_digits.
    + rewrite digits_to_number_N. f_equal. lia.
    + apply string_of_uint_digits.
    + apply string_of_N_nonempty.
Qed.

(** ** binary64: rounding stays below representable bounds *)

(** [digits2_pos] counts the binary digits. *)
Lemma digits2_pos_bounds (p : positive) :
  2 ^ (Z.pos (digits2_pos p) - 1) <= Z.pos p < 2 ^ Z.pos (digits2_pos p).
Proof.
  induction p as [p IH|p IH|]; cbn [digits2_pos].
  - rewrite Pos2Z.inj_succ.
    replace (Z.succ (Z.pos (digits2_pos p)) - 1) with (Z.succ (Z.pos (digits2_pos p) - 1)) by lia.
    rewrite !Z.pow_succ_r by lia. lia.
  - rewrite Pos2Z.inj_succ.
    replace (Z.succ (Z.pos (digits2_pos p)) - 1) with (Z.succ (Z.pos (digits2_pos p) - 1)) by lia.
    rewrite !Z.pow_succ_r by lia. lia.
  - simpl. lia.
Qed.

Lemma Zdigits2_nonneg m : 0 <= m -> 0 <= Zdigits2 m.
Proof. destruct m; simpl; lia. Qed.

(** A non-negative [m] below [2^d] has at most [d] digits. *)
Lemma Zdigits2_le m d : 0 <= m -> 0 <= d -> m < 2 ^ d -> Zdigits2 m <= d.
Proof.
  intros Hm Hd H. destruct m as [|p|p]; simpl; try lia.
  pose proof (digits2_pos_bounds p) as [L _].
  destruct (Z_lt_le_dec d (Z.pos (digits2_pos p))) as [Hlt|]; [|assumption].
  exfalso.
  assert (2 ^ d <= 2 ^ (Z.pos (digits2_pos p) - 1)) by (apply Z.pow_le_mono_r; lia).
  lia.
Qed.

Lemma Zdigits2_ge m d : 0 <= d -> 2 ^ d <= m -> d < Zdigits2 m.
Proof.
  intros Hd H.
  assert (0 < 2 ^ d) by (apply Z.pow_pos_nonneg; lia).
  destruct m as [|p|p]; simpl; try lia.
  pose proof (digits2_pos_bounds p) as [_ U].
  destruct (Z_lt_le_dec d (Z.pos (digits2_pos p))) as [|Hle]; [assumption|].
  exfalso.
  assert (2 ^ Z.pos (digits2_pos p) <= 2 ^ d) by (apply Z.pow_le_mono_r; lia).
  lia.
Qed.

(** One shift halves the bound, rounded up. *)
Lemma shr_1_up mrs K :
  0 <= shr_m mrs -> shr_up mrs <= 2 * K ->
  0 <= shr_m (shr_1 mrs) /\ shr_up (shr_1 mrs) <= K.
Proof.
  destruct mrs as [m r s]. unfold shr_up. cbn [shr_m shr_r shr_s].
  intros Hm H.
  destruct m as [|[p|p|]|p]; try lia; cbn [shr_1 shr_m shr_r shr_s];
    destruct r, s; cbn [orb] in *; lia.
Qed.

Lemma iter_shr_1_up p : forall mrs K,
  0 <= shr_m mrs -> shr_up mrs <= 2 ^ Z.pos p * K ->
  0 <= shr_m (iter_pos shr_1 p mrs) /\ shr_up (iter_pos shr_1 p mrs) <= K.
Proof.
  induction p as [p IH|p IH|]; intros mrs K Hm H; cbn [iter_pos].
  - replace (Z.pos p~1) with (1 + Z.pos p + Z.pos p) in H by lia.
    rewrite !Z.pow_add_r in H by lia. change (2 ^ 1) with 2 in H.
    rewrite <- !Z.mul_assoc in H.
    pose proof (shr_1_up mrs _ Hm H) as [H1 H2].
    pose proof (IH _ _ H1 H2) as [H3 H4].
    exact (IH _ _ H3 H4).
  - replace (Z.pos p~0) with (Z.pos p + Z.pos p) in H by lia.
    rewrite Z.pow_add_r in H by lia. rewrite <- !Z.mul_assoc in H.
    pose proof (IH _ _ Hm H) as [H1 H2].
    exact (IH _ _ H1 H2).
  - apply shr_1_up; [assumption|]. change (2 ^ 1) with 2 in H. lia.
Qed.

Lemma shr_record_of_loc_m m l : shr_m (shr_record_of_loc m l) = m.
Proof. destruct l as [|[]]; reflexivity. Qed.

Lemma shr_record_of_loc_up m l : shr_up (shr_record_of_loc m l) = loc_up m l.
Proof. destruct l as [|[]]; reflexivity. Qed.

Lemma round_nearest_even_le mrs :
  0 <= shr_m mrs ->
  shr_m mrs <= round_nearest_even (shr_m mrs) (loc_of_shr_record mrs) <= shr_up mrs.
Proof.
  destruct mrs as [m [] []]; unfold shr_up; cbn [shr_m shr_r shr_s loc_of_shr_record round_nearest_even orb];
    try destruct (Z.even m); lia.
Qed.

Lemma fexp_mono a b : a <= b -> fexp prec emax a <= fexp prec emax b.
Proof. unfold fexp. lia. Qed.

(** The exponent [shr_fexp] settles on, and what it keeps of the bound. *)
Lemma shr_fexp_up m e l Bm Be :
  0 <= m -> 0 < Bm -> e <= Be ->
  fexp prec emax (Zdigits2 Bm + Be) <= Be ->
  loc_up m l <= Bm * 2 ^ (Be - e) ->
  let '(mrs, e') := shr_fexp prec emax m e l in
  0 <= shr_m mrs /\ e <= e' <= Z.max e (fexp prec emax (Zdigits2 Bm + Be)) /\
  shr_up mrs <= Bm * 2 ^ (Be - e').
Proof.
  intros Hm HB He HE H.
  assert (Hd : Zdigits2 m + e <= Zdigits2 Bm + Be).
  { assert (Hlt : m < 2 ^ (Zdigits2 Bm + (Be - e))).
    { destruct Bm as [|q|q]; try lia. cbn [Zdigits2].
      pose proof (digits2_pos_bounds q) as [_ U].
      rewrite Z.pow_add_r by lia.
      assert (0 < 2 ^ (Be - e)) by (apply Z.pow_pos_nonneg; lia).
      unfold loc_up in H. destruct l; nia. }
    assert (0 <= Zdigits2 Bm) by (apply Zdigits2_nonneg; lia).
    assert (Zdigits2 m <= Zdigits2 Bm + (Be - e)) by (apply Zdigits2_le; lia).
    lia. }
  pose proof (fexp_mono _ _ Hd) as Hf.
  unfold shr_fexp, shr.
  destruct (fexp prec emax (Zdigits2 m + e) - e) as [|n|n] eqn:En.
  - rewrite shr_record_of_loc_m, shr_record_of_loc_up. repeat split; try lia.
  - assert (Hs : Bm * 2 ^ (Be - e) = 2 ^ Z.pos n * (Bm * 2 ^ (Be - (e + Z.pos n)))).
    { replace (Be - e) with (Z.pos n + (Be - (e + Z.pos n))) by lia.
      rewrite Z.pow_add_r by lia. ring. }
    destruct (iter_shr_1_up n (shr_record_of_loc m l) (Bm * 2 ^ (Be - (e + Z.pos n)))) as [H1 H2].
    + now rewrite shr_record_of_loc_m.
    + rewrite shr_record_of_loc_up. lia.
    + repeat split; try lia.
  - rewrite shr_record_of_loc_m, shr_record_of_loc_up. repeat split; try lia.
Qed.

Lemma shr_m_le_up mrs : shr_m mrs <= shr_up mrs.
Proof. unfold shr_up. destruct (shr_r mrs || shr_s mrs); lia. Qed.

(** Rounding never crosses a bound that the format represents: if the exact
    value is at most [Bm * 2^Be], so is the rounded one. *)
Lemma binary_round_aux_le m e l Bm Be :
  0 <= m -> 0 < Bm -> e <= Be ->
  fexp prec emax (Zdigits2 Bm + Be) <= Be -> Be <= emax - prec ->
  loc_up m l <= Bm * 2 ^ (Be - e) ->
  match binary_round_aux prec emax false m e l with
  | S754_zero false => True
  | S754_finite false m' e' =>
      e <= e' <= Z.max e (fexp prec emax (Zdigits2 Bm + Be)) /\
      Z.pos m' <= Bm * 2 ^ (Be - e')
  | _ => False
  end.
Proof.
  intros Hm HB He HE Hmax H.
  unfold binary_round_aux.
  pose proof (shr_fexp_up m e l Bm Be Hm HB He HE H) as S1.
  destruct (shr_fexp prec emax m e l) as [mrs1 e1].
  destruct S1 as (M1 & E1 & U1).
  pose proof (round_nearest_even_le mrs1 M1) as [R1 R2].
  set (mr := round_nearest_even (shr_m mrs1) (loc_of_shr_record mrs1)) in *.
  assert (S2 := shr_fexp_up mr e1 loc_Exact Bm Be).
  unfold loc_up in S2 at 1. rewrite Z.add_0_r in S2.
  specialize (S2 ltac:(lia) HB ltac:(lia) HE ltac:(lia)).
  destruct (shr_fexp prec emax mr e1 loc_Exact) as [mrs2 e2].
  destruct S2 as (M2 & E2 & U2).
  pose proof (shr_m_le_up mrs2) as L2.
  destruct (shr_m mrs2) as [|m2|m2]; [exact I| |lia].
  assert (Hle : (e2 <=? emax - prec) = true) by (apply Z.leb_le; lia).
  rewrite Hle. split; lia.
Qed.

Lemma pos_iter_xO p k : Z.pos (Pos.iter xO p k) = Z.pos p * 2 ^ Z.pos k.
Proof.
  revert p. induction k as [|k IH] using Pos.peano_ind; intros p.
  - simpl. lia.
  - rewrite Pos.iter_succ, Pos2Z.inj_xO, IH, Pos2Z.inj_succ, Z.pow_succ_r by lia. ring.
Qed.

(** A value that needs no shift comes back as it is. *)
Lemma binary_round_aux_exact m e :
  fexp prec emax (Z.pos (digits2_pos m) + e) <= e -> e <= emax - prec ->
  binary_round_aux prec emax false (Z.pos m) e loc_Exact = S754_finite false m e.
Proof.
  intros Hf He. unfold binary_round_aux, shr_fexp, shr. cbn [Zdigits2 shr_record_of_loc].
  destruct (fexp prec emax (Z.pos (digits2_pos m) + e) - e) as [|n|n] eqn:En; try lia;
    cbn [shr_m loc_of_shr_record round_nearest_even Zdigits2 shr_record_of_loc];
    rewrite En; cbn [shr_m];
    (replace (e <=? emax - prec) with true by (symmetry; apply Z.leb_le; lia));
    reflexivity.
Qed.

(** The Number of a positive integer below 2^53 is that integer. *)
Lemma js_of_Z_pos n :
  0 < n < 2 ^ 53 ->
  exists m e, js_of_Z n = S754_finite false m e /\ -52 <= e <= 0 /\
              Z.pos m = n * 2 ^ (- e).
Proof.
  intros [Hn Hlt]. destruct n as [|p|p]; try lia.
  unfold js_of_Z, binary_normalize, binary_round, shl_align.
  pose proof (digits2_pos_bounds p) as [L U].
  assert (Hd : Zdigits2 (Z.pos p) <= 53) by (apply Zdigits2_le; lia).
  cbn [Zdigits2] in Hd.
  set (d := Z.pos (digits2_pos p)) in *.
  assert (Hfe : fexp prec emax (d + 0) = d - 53) by (unfold fexp, emin, prec, emax; lia).
  rewrite Hfe.
  destruct (d - 53 - 0) as [|k|k] eqn:Ek; try lia.
  - exists p, 0. rewrite binary_round_aux_exact.
    + split; [reflexivity|]. split; [lia|]. simpl. lia.
    + fold d. unfold fexp, emin, prec, emax. lia.
    + unfold prec, emax. lia.
  - exists (Pos.iter xO p k), (d - 53).
    assert (Hv : Z.pos (Pos.iter xO p k) = Z.pos p * 2 ^ (- (d - 53))).
    { rewrite pos_iter_xO. f_equal. f_equal. lia. }
    assert (Hdk : Z.pos (digits2_pos (Pos.iter xO p k)) = 53).
    { pose proof (digits2_pos_bounds (Pos.iter xO p k)) as [L' U'].
      rewrite Hv in L', U'.
      assert (P1 : 2 ^ 52 = 2 ^ (d - 1) * 2 ^ (- (d - 53))).
      { rewrite <- Z.pow_add_r by lia. f_equal. lia. }
      assert (P2 : 2 ^ 53 = 2 ^ d * 2 ^ (- (d - 53))).
      { rewrite <- Z.pow_add_r by lia. f_equal. lia. }
      assert (0 < 2 ^ (- (d - 53))) by (apply Z.pow_pos_nonneg; lia).
      assert (A1 : Zdigits2 (Z.pos p * 2 ^ (- (d - 53))) <= 53) by (apply Zdigits2_le; nia).
      assert (A2 : 52 < Zdigits2 (Z.pos p * 2 ^ (- (d - 53)))) by (apply Zdigits2_ge; nia).
      rewrite <- Hv in A1, A2. cbn [Zdigits2] in A1, A2. lia. }
    rewrite binary_round_aux_exact.
    + split; [reflexivity|]. split; [lia|]. exact Hv.
    + rewrite Hdk. unfold fexp, emin, prec, emax. lia.
    + unfold prec, emax. lia.
Qed.

(** The location of a quotient is exact when the remainder is zero. *)
Lemma new_location_up n q r :
  loc_up q (new_location n r) = q + (if r =? 0 then 0 else 1).
Proof.
  unfold new_location, new_location_even, new_location_odd, loc_up.
  destruct (Z.even n), (r =? 0); reflexivity.
Qed.

(** The quotient of two positive Numbers, the first at most the second, is at
    most 1. *)
Lemma js_div_le_one mx ex my ey :
  -52 <= ex <= 0 -> -52 <= ey <= 0 ->
  Z.pos mx * 2 ^ (- ey) <= Z.pos my * 2 ^ (- ex) ->
  match js_div (S754_finite false mx ex) (S754_finite false my ey) with
  | S754_zero false => True
  | S754_finite false m e => e <= 0 /\ Z.pos m <= 2 ^ (- e)
  | _ => False
  end.
Proof.
  intros Hex Hey H.
  unfold js_div, SFdiv, SFdiv_core_binary. cbn [xorb Zdigits2].
  pose proof (digits2_pos_bounds mx) as [L1 U1].
  pose proof (digits2_pos_bounds my) as [L2 U2].
  set (d1 := Z.pos (digits2_pos mx)) in *.
  set (d2 := Z.pos (digits2_pos my)) in *.
  assert (Hd1 : 0 < d1) by (unfold d1; lia).
  assert (Hd2 : 0 < d2) by (unfold d2; lia).
  assert (Hd : d1 + ex <= d2 + ey).
  { assert (Hp : 2 ^ (d1 - 1 - ey) < 2 ^ (d2 - ex)).
    { replace (d1 - 1 - ey) with ((d1 - 1) + - ey) by lia.
      replace (d2 - ex) with (d2 + - ex) by lia.
      rewrite !Z.pow_add_r by lia.
      assert (0 < 2 ^ (- ey)) by (apply Z.pow_pos_nonneg; lia).
      assert (0 < 2 ^ (- ex)) by (apply Z.pow_pos_nonneg; lia).
      nia. }
    apply Z.pow_lt_mono_r_iff in Hp; lia. }
  set (e' := Z.min (fexp prec emax (d1 + ex - (d2 + ey))) (ex - ey)).
  assert (He' : -1074 <= e' <= -53) by (unfold e', fexp, emin, prec, emax; lia).
  destruct (ex - ey - e') as [|s|s] eqn:Es; try lia.
  rewrite Z.shiftl_mul_pow2 by lia.
  pose proof (Z_div_mod (Z.pos mx * 2 ^ Z.pos s) (Z.pos my) ltac:(lia)) as DM.
  destruct (Z.div_eucl (Z.pos mx * 2 ^ Z.pos s) (Z.pos my)) as [q r].
  destruct DM as [DM1 DM2].
  assert (Hb : Z.pos mx * 2 ^ Z.pos s <= Z.pos my * 2 ^ (- e')).
  { replace (Z.pos s) with (- ey + (ex - e')) by lia.
    replace (- e') with (- ex + (ex - e')) by lia.
    rewrite !Z.pow_add_r by lia.
    assert (0 < 2 ^ (ex - e')) by (apply Z.pow_pos_nonneg; lia).
    nia. }
  assert (0 < 2 ^ (- e')) by (apply Z.pow_pos_nonneg; lia).
  assert (Hq : 0 <= q) by nia.
  pose proof (binary_round_aux_le q e' (new_location (Z.pos my) r) 1 0) as R.
  rewrite new_location_up in R.
  assert (Hup : q + (if r =? 0 then 0 else 1) <= 1 * 2 ^ (0 - e')).
  { rewrite Z.mul_1_l, Z.sub_0_l.
    destruct (r =? 0) eqn:Er.
    - apply Z.eqb_eq in Er. nia.
    - apply Z.eqb_neq in Er. nia. }
  specialize (R Hq ltac:(lia) ltac:(lia)).
  cbn [Zdigits2 digits2_pos] in R.
  specialize (R ltac:(unfold fexp, emin, prec, emax; lia) ltac:(unfold prec, emax; lia) Hup).
  destruct (binary_round_aux prec emax false q e' (new_location (Z.pos my) r))
    as [[]|[]| |[] m e]; try assumption.
  destruct R as [R1 R2]. rewrite Z.mul_1_l, Z.sub_0_l in R2.
  split; [|assumption].
  revert R1. unfold fexp, emin, prec, emax. lia.
Qed.

Lemma js_of_Z_100 : js_of_Z 100 = S754_finite false 7036874417766400 (-46).
Proof. reflexivity. Qed.

(** [Math.round(d * 100)] for a Number [d] between 0 and 1. *)
Lemma round_percent_of_fraction m e :
  e <= 0 -> Z.pos m <= 2 ^ (- e) ->
  exists k, 0 <= k <= 100 /\
    Math_round (js_mul (S754_finite false m e) (js_of_Z 100)) = js_of_Z k.
Proof.
  intros He Hm. rewrite js_of_Z_100.
  unfold js_mul, SFmul. cbn [xorb].
  pose proof (binary_round_aux_le (Z.pos (m * 7036874417766400)) (e + -46) loc_Exact 25 2) as R.
  unfold loc_up in R. rewrite Z.add_0_r in R.
  cbn [Zdigits2 digits2_pos Pos.succ] in R.
  assert (Hb : Z.pos (m * 7036874417766400) <= 25 * 2 ^ (2 - (e + -46))).
  { rewrite Pos2Z.inj_mul.
    replace (2 - (e + -46)) with (48 + - e) by lia.
    rewrite Z.pow_add_r by lia.
    change (Z.pos 7036874417766400) with (25 * 2 ^ 48). nia. }
  specialize (R ltac:(lia) ltac:(lia) ltac:(lia)
                ltac:(unfold fexp, emin, prec, emax; lia)
                ltac:(unfold prec, emax; lia) Hb).
  destruct (binary_round_aux prec emax false (Z.pos (m * 7036874417766400)) (e + -46) loc_Exact)
    as [[]|[]| |[] m' e']; try contradiction.
  - exists 0. split; [lia|reflexivity].
  - destruct R as [R1 R2].
    assert (He' : e' < 0) by (revert R1; unfold fexp, emin, prec, emax; lia).
    unfold Math_round.
    replace (0 <=? e') with false by (symmetry; apply Z.leb_gt; lia).
    set (k := (Z.pos m' + 2 ^ (- e' - 1)) / 2 ^ (- e')).
    assert (P : 0 < 2 ^ (- e')) by (apply Z.pow_pos_nonneg; lia).
    assert (P1 : 0 < 2 ^ (- e' - 1)) by (apply Z.pow_pos_nonneg; lia).
    assert (P2 : 2 ^ (- e') = 2 * 2 ^ (- e' - 1)).
    { rewrite <- Z.pow_succ_r by lia. f_equal. lia. }
    assert (P3 : 25 * 2 ^ (2 - e') = 100 * 2 ^ (- e')).
    { replace (2 - e') with (2 + - e') by lia. rewrite Z.pow_add_r by lia. lia. }
    assert (Hk0 : 0 <= k) by (apply Z.div_pos; lia).
    assert (Hk1 : k <= 100).
    { assert (k < 101); [|lia]. apply Z.div_lt_upper_bound; lia. }
    exists k. split; [lia|].
    destruct (k =? 0) eqn:Ek; [|reflexivity].
    apply Z.eqb_eq in Ek. rewrite Ek. reflexivity.
Qed.

(** The pass rate is a whole percentage between 0 and 100. *)
Lemma pass_rate_percentage a b :
  0 <= a <= b -> 0 < b < 2 ^ 53 ->
  exists k, 0 <= k <= 100 /\ pass_rate a b = js_of_Z k.
Proof.
  intros [Ha Hab] Hb. unfold pass_rate.
  destruct (js_of_Z_pos b Hb) as (mb & eb & Eb & Heb & Vb). rewrite Eb.
  destruct (Z.eq_dec a 0) as [->|Hne].
  - exists 0. split; [lia|reflexivity].
  - destruct (js_of_Z_pos a ltac:(lia)) as (ma & ea & Ea & Hea & Va). rewrite Ea.
    pose proof (js_div_le_one ma ea mb eb Hea Heb) as D.
    assert (Hle : Z.pos ma * 2 ^ (- eb) <= Z.pos mb * 2 ^ (- ea)).
    { rewrite Va, Vb.
      assert (0 < 2 ^ (- ea)) by (apply Z.pow_pos_nonneg; lia).
      assert (0 < 2 ^ (- eb)) by (apply Z.pow_pos_nonneg; lia).
      nia. }
    specialize (D Hle).
    destruct (js_div (S754_finite false ma ea) (S754_finite false mb eb))
      as [[]|[]| |[] m e]; try contradiction.
    + exists 0. split; [lia|reflexivity].
    + destruct D as [D1 D2]. now apply round_percent_of_fraction.
Qed.

(** A Number divided by itself is 1, and the pass rate is then 100. *)
Lemma js_div_self m e :
  js_div (S754_finite false m e) (S754_finite false m e)
  = S754_finite false 4503599627370496 (-52).
Proof.
  unfold js_div, SFdiv, SFdiv_core_binary. cbn [xorb Zdigits2].
  rewrite !Z.sub_diag.
  change (Z.min (fexp prec emax 0) 0) with (-53).
  change (0 - -53) with 53.
  cbv iota beta.
  rewrite Z.shiftl_mul_pow2 by lia.
  assert (E : Z.div_eucl (Z.pos m * 2 ^ 53) (Z.pos m) = (2 ^ 53, 0)).
  { pose proof (Z.div_mul (2 ^ 53) (Z.pos m) ltac:(lia)) as Q.
    pose proof (Z.mod_mul (2 ^ 53) (Z.pos m) ltac:(lia)) as R.
    rewrite (Z.mul_comm (2 ^ 53)) in Q, R.
    unfold Z.div in Q. unfold Z.modulo in R.
    destruct (Z.div_eucl (Z.pos m * 2 ^ 53) (Z.pos m)) as [q r].
    now subst. }
  rewrite E.
  unfold new_location, new_location_even, new_location_odd.
  destruct (Z.even (Z.pos m)); reflexivity.
Qed.

Lemma pass_rate_all a : 0 < a < 2 ^ 53 -> pass_rate a a = js_of_Z 100.
Proof.
  intros Ha. unfold pass_rate.
  destruct (js_of_Z_pos a Ha) as (ma & ea & Ea & _). rewrite Ea, js_div_self.
  reflexivity.
Qed.

(** ** binary64: the pass rate away from exact halves *)

(** One shift keeps a lower bound that is halved. *)
Lemma shr_1_lo mrs K :
  0 <= shr_m mrs -> 2 * K <= shr_m mrs -> K <= shr_m (shr_1 mrs).
Proof.
  destruct mrs as [m r s]. cbn [shr_m]. intros Hm H.
  destruct m as [|[p|p|]|p]; cbn [shr_1 shr_m]; lia.
Qed.

Lemma iter_shr_1_lo p : forall mrs K,
  0 <= shr_m mrs -> 0 <= K -> 2 ^ Z.pos p * K <= shr_m mrs ->
  K <= shr_m (iter_pos shr_1 p mrs).
Proof.
  induction p as [p IH|p IH|]; intros mrs K Hm HK H; cbn [iter_pos].
  - replace (Z.pos p~1) with (1 + Z.pos p + Z.pos p) in H by lia.
    rewrite !Z.pow_add_r in H by lia. change (2 ^ 1) with 2 in H.
    rewrite <- !Z.mul_assoc in H.
    assert (P : 0 < 2 ^ Z.pos p) by (apply Z.pow_pos_nonneg; lia).
    pose proof (shr_1_lo mrs _ Hm H) as H1.
    pose proof (proj1 (shr_1_up mrs (shr_up mrs) Hm ltac:(pose proof (shr_m_le_up mrs); lia))) as N1.
    assert (H2 : 2 ^ Z.pos p * K <= shr_m (iter_pos shr_1 p (shr_1 mrs))).
    { apply IH; [assumption|nia|assumption]. }
    apply IH; try assumption.
    apply (iter_shr_1_up p (shr_1 mrs) (shr_up (shr_1 mrs))); [assumption|].
    pose proof (shr_m_le_up (shr_1 mrs)). unfold shr_up in *.
    destruct (shr_r (shr_1 mrs) || shr_s (shr_1 mrs)); nia.
  - replace (Z.pos p~0) with (Z.pos p + Z.pos p) in H by lia.
    rewrite Z.pow_add_r in H by lia. rewrite <- !Z.mul_assoc in H.
    assert (P : 0 < 2 ^ Z.pos p) by (apply Z.pow_pos_nonneg; lia).
    assert (H2 : 2 ^ Z.pos p * K <= shr_m (iter_pos shr_1 p mrs)).
    { apply IH; [assumption|nia|assumption]. }
    apply IH; try assumption.
    apply (iter_shr_1_up p mrs (shr_up mrs)); [assumption|].
    pose proof (shr_m_le_up mrs). unfold shr_up in *.
    destruct (shr_r mrs || shr_s mrs); nia.
  - apply shr_1_lo; [assumption|]. change (2 ^ 1) with 2 in H. lia.
Qed.

Lemma shr_fexp_lo m e l Lm Be :
  0 <= m -> 0 <= Lm ->
  snd (shr_fexp prec emax m e l) <= Be ->
  Lm * 2 ^ (Be - e) <= m ->
  Lm * 2 ^ (Be - snd (shr_fexp prec emax m e l))
  <= shr_m (fst (shr_fexp prec emax m e l)).
Proof.
  intros Hm HL. unfold shr_fexp, shr.
  destruct (fexp prec emax (Zdigits2 m + e) - e) as [|n|n]; cbn [fst snd];
    rewrite ?shr_record_of_loc_m; try (intros _ H; exact H).
  intros He H.
  apply iter_shr_1_lo.
  - now rewrite shr_record_of_loc_m.
  - apply Z.mul_nonneg_nonneg; [assumption|]. apply Z.pow_nonneg. lia.
  - rewrite shr_record_of_loc_m.
    replace (Be - e) with (Z.pos n + (Be - (e + Z.pos n))) in H by lia.
    rewrite Z.pow_add_r in H by lia. lia.
Qed.

(** Rounding keeps a value between two bounds of one grid. *)
Lemma binary_round_aux_between m e l Lm Um Be :
  0 <= m -> 0 < Lm -> 0 < Um -> e <= Be ->
  fexp prec emax (Zdigits2 Um + Be) <= Be -> Be <= emax - prec ->
  Lm * 2 ^ (Be - e) <= m ->
  loc_up m l <= Um * 2 ^ (Be - e) ->
  exists m' e',
    binary_round_aux prec emax false m e l = S754_finite false m' e' /\
    e <= e' <= Z.max e (fexp prec emax (Zdigits2 Um + Be)) /\
    Lm * 2 ^ (Be - e') <= Z.pos m' <= Um * 2 ^ (Be - e').
Proof.
  intros Hm HL HU He HE Hmax Hlo Hup.
  unfold binary_round_aux.
  pose proof (shr_fexp_up m e l Um Be Hm HU He HE Hup) as S1.
  pose proof (shr_fexp_lo m e l Lm Be Hm ltac:(lia)) as T1.
  destruct (shr_fexp prec emax m e l) as [mrs1 e1].
  destruct S1 as (M1 & E1 & U1). cbn [fst snd] in T1.
  specialize (T1 ltac:(lia) Hlo).
  pose proof (round_nearest_even_le mrs1 M1) as [R1 R2].
  set (mr := round_nearest_even (shr_m mrs1) (loc_of_shr_record mrs1)) in *.
  assert (S2 := shr_fexp_up mr e1 loc_Exact Um Be).
  unfold loc_up in S2 at 1. rewrite Z.add_0_r in S2.
  specialize (S2 ltac:(lia) HU ltac:(lia) HE ltac:(lia)).
  pose proof (shr_fexp_lo mr e1 loc_Exact Lm Be ltac:(lia) ltac:(lia)) as T2.
  destruct (shr_fexp prec emax mr e1 loc_Exact) as [mrs2 e2].
  destruct S2 as (M2 & E2 & U2). cbn [fst snd] in T2.
  specialize (T2 ltac:(lia) ltac:(lia)).
  pose proof (shr_m_le_up mrs2) as L2.
  assert (0 < 2 ^ (Be - e2)) by (apply Z.pow_pos_nonneg; lia).
  destruct (shr_m mrs2) as [|m2|m2]; [nia| |lia].
  assert (Hle : (e2 <=? emax - prec) = true) by (apply Z.leb_le; lia).
  rewrite Hle. exists m2, e2. repeat split; lia.
Qed.

(** The quotient of two positive Numbers lies between bounds of the grid
    2^-53 that enclose the exact quotient. *)
Lemma js_div_between mx ex my ey Lm Um :
  -52 <= ex <= 0 -> -52 <= ey <= 0 ->
  0 < Lm -> 0 < Um < 2 ^ 53 ->
  Lm * Z.pos my <= Z.pos mx * 2 ^ (53 + ex - ey) ->
  Z.pos mx * 2 ^ (53 + ex - ey) <= Um * Z.pos my ->
  exists m e,
    js_div (S754_finite false mx ex) (S754_finite false my ey)
    = S754_finite false m e /\
    e <= -53 /\
    Lm * 2 ^ (-53 - e) <= Z.pos m <= Um * 2 ^ (-53 - e).
Proof.
  intros Hex Hey HL HU Hlo Hup.
  unfold js_div, SFdiv, SFdiv_core_binary. cbn [xorb Zdigits2].
  pose proof (digits2_pos_bounds mx) as [L1 U1].
  pose proof (digits2_pos_bounds my) as [L2 U2].
  set (d1 := Z.pos (digits2_pos mx)) in *.
  set (d2 := Z.pos (digits2_pos my)) in *.
  assert (Hd1 : 0 < d1) by (unfold d1; lia).
  assert (Hd2 : 0 < d2) by (unfold d2; lia).
  assert (Hd : d1 + ex <= d2 + ey).
  { assert (Hp : 2 ^ (d1 - 1 + (53 + ex - ey)) < 2 ^ (53 + d2)).
    { rewrite !Z.pow_add_r by lia.
      assert (0 < 2 ^ (53 + ex - ey)) by (apply Z.pow_pos_nonneg; lia).
      nia. }
    apply Z.pow_lt_mono_r_iff in Hp; lia. }
  set (e' := Z.min (fexp prec emax (d1 + ex - (d2 + ey))) (ex - ey)).
  assert (He' : -1074 <= e' <= -53) by (unfold e', fexp, emin, prec, emax; lia).
  destruct (ex - ey - e') as [|s|s] eqn:Es; try lia.
  rewrite Z.shiftl_mul_pow2 by lia.
  pose proof (Z_div_mod (Z.pos mx * 2 ^ Z.pos s) (Z.pos my) ltac:(lia)) as DM.
  destruct (Z.div_eucl (Z.pos mx * 2 ^ Z.pos s) (Z.pos my)) as [q r].
  destruct DM as [DM1 DM2].
  assert (Hs : 2 ^ Z.pos s = 2 ^ (53 + ex - ey) * 2 ^ (-53 - e')).
  { rewrite <- Z.pow_add_r by lia. f_equal. lia. }
  assert (P : 0 < 2 ^ (-53 - e')) by (apply Z.pow_pos_nonneg; lia).
  assert (Hq : 0 <= q) by nia.
  destruct (binary_round_aux_between q e' (new_location (Z.pos my) r) Lm Um (-53))
    as (m & e & E & He & Hm); try lia.
  - unfold fexp, emin, prec, emax.
    assert (Zdigits2 Um <= 53) by (apply Zdigits2_le; lia). lia.
  - unfold prec, emax. lia.
  - assert (Lm * 2 ^ (-53 - e') * Z.pos my <= Z.pos mx * 2 ^ Z.pos s) by (rewrite Hs; nia).
    nia.
  - rewrite new_location_up.
    assert (Hb : Z.pos mx * 2 ^ Z.pos s <= Um * 2 ^ (-53 - e') * Z.pos my) by (rewrite Hs; nia).
    destruct (r =? 0) eqn:Er.
    + apply Z.eqb_eq in Er. nia.
    + apply Z.eqb_neq in Er. nia.
  - exists m, e. split; [exact E|]. split; [|exact Hm].
    assert (Zdigits2 Um <= 53) by (apply Zdigits2_le; lia).
    revert He. unfold fexp, emin, prec, emax. lia.
Qed.

(** [Math.round(d * 100)] when [d] lies strictly inside the interval whose
    percentages round to [n]. *)
Lemma round_percent_inside m e Lm Um n :
  e <= -53 -> 1 <= n <= 100 ->
  Lm * 2 ^ (-53 - e) <= Z.pos m <= Um * 2 ^ (-53 - e) ->
  (2 * n - 1) * 2 ^ 53 <= 200 * Lm ->
  200 * Um <= (2 * n + 1) * 2 ^ 53 - 2 ^ 8 ->
  Math_round (js_mul (S754_finite false m e) (js_of_Z 100)) = js_of_Z n.
Proof.
  intros He Hn Hm HL HU. rewrite js_of_Z_100.
  unfold js_mul, SFmul. cbn [xorb].
  assert (P : 0 < 2 ^ (-53 - e)) by (apply Z.pow_pos_nonneg; lia).
  assert (Pe : 2 ^ (- e) = 2 ^ 53 * 2 ^ (-53 - e)).
  { rewrite <- Z.pow_add_r by lia. f_equal. lia. }
  destruct (binary_round_aux_between (Z.pos (m * 7036874417766400)) (e + -46)
              loc_Exact ((2 * n - 1) * 2 ^ 45) ((2 * n + 1) * 2 ^ 45 - 1) (-46))
    as (mp & ep & E & Hep & Hmp); try lia.
  - assert (Zdigits2 ((2 * n + 1) * 2 ^ 45 - 1) <= 53) by (apply Zdigits2_le; lia).
    unfold fexp, emin, prec, emax. lia.
  - unfold prec, emax. lia.
  - replace (-46 - (e + -46)) with (- e) by lia.
    rewrite Pos2Z.inj_mul, Pe.
    change (Z.pos 7036874417766400) with (100 * 2 ^ 46). nia.
  - unfold loc_up. rewrite Z.add_0_r.
    replace (-46 - (e + -46)) with (- e) by lia.
    rewrite Pos2Z.inj_mul, Pe.
    change (Z.pos 7036874417766400) with (100 * 2 ^ 46). nia.
  - rewrite E.
    assert (Hep' : ep <= -46).
    { assert (Zdigits2 ((2 * n + 1) * 2 ^ 45 - 1) <= 53) by (apply Zdigits2_le; lia).
      revert Hep. unfold fexp, emin, prec, emax. lia. }
    unfold Math_round.
    replace (0 <=? ep) with false by (symmetry; apply Z.leb_gt; lia).
    assert (G : 0 < 2 ^ (-46 - ep)) by (apply Z.pow_pos_nonneg; lia).
    assert (G1 : 2 ^ (- ep) = 2 ^ 46 * 2 ^ (-46 - ep)).
    { rewrite <- Z.pow_add_r by lia. f_equal. lia. }
    assert (G2 : 2 ^ (- ep - 1) = 2 ^ 45 * 2 ^ (-46 - ep)).
    { rewrite <- Z.pow_add_r by lia. f_equal. lia. }
    assert (Hk : (Z.pos mp + 2 ^ (- ep - 1)) / 2 ^ (- ep) = n).
    { symmetry. apply Z.div_unique with (r := Z.pos mp + 2 ^ (- ep - 1) - 2 ^ (- ep) * n).
      - left. rewrite G1, G2. nia.
      - ring. }
    rewrite Hk.
    replace (n =? 0) with false by (symmetry; apply Z.eqb_neq; lia).
    reflexivity.
Qed.

(** [Math.round(d * 100)] when [d * 100] is below one half. *)
Lemma round_percent_small m e Um :
  e <= -53 ->
  Z.pos m <= Um * 2 ^ (-53 - e) ->
  0 < Um -> 200 * Um <= 2 ^ 53 - 2 ^ 8 ->
  Math_round (js_mul (S754_finite false m e) (js_of_Z 100)) = js_of_Z 0.
Proof.
  intros He Hm HU0 HU. rewrite js_of_Z_100.
  unfold js_mul, SFmul. cbn [xorb].
  assert (P : 0 < 2 ^ (-53 - e)) by (apply Z.pow_pos_nonneg; lia).
  assert (Pe : 2 ^ (- e) = 2 ^ 53 * 2 ^ (-53 - e)).
  { rewrite <- Z.pow_add_r by lia. f_equal. lia. }
  pose proof (binary_round_aux_le (Z.pos (m * 7036874417766400)) (e + -46)
                loc_Exact (2 ^ 45 - 1) (-46)) as R.
  unfold loc_up in R. rewrite Z.add_0_r in R.
  assert (D : Zdigits2 (2 ^ 45 - 1) <= 45) by (apply Zdigits2_le; lia).
  assert (Hb : Z.pos (m * 7036874417766400) <= (2 ^ 45 - 1) * 2 ^ (-46 - (e + -46))).
  { replace (-46 - (e + -46)) with (- e) by lia.
    rewrite Pos2Z.inj_mul, Pe.
    change (Z.pos 7036874417766400) with (100 * 2 ^ 46). nia. }
  specialize (R ltac:(lia) ltac:(lia) ltac:(lia)
                ltac:(revert D; unfold fexp, emin, prec, emax; lia)
                ltac:(unfold prec, emax; lia) Hb).
  destruct (binary_round_aux prec emax false (Z.pos (m * 7036874417766400)) (e + -46) loc_Exact)
    as [[]|[]| |[] mp ep]; try contradiction.
  - reflexivity.
  - destruct R as [R1 R2].
    assert (Hep : ep <= -46) by (revert R1 D; unfold fexp, emin, prec, emax; lia).
    unfold Math_round.
    replace (0 <=? ep) with false by (symmetry; apply Z.leb_gt; lia).
    assert (G : 0 < 2 ^ (-46 - ep)) by (apply Z.pow_pos_nonneg; lia).
    assert (G1 : 2 ^ (- ep) = 2 ^ 46 * 2 ^ (-46 - ep)).
    { rewrite <- Z.pow_add_r by lia. f_equal. lia. }
    assert (G2 : 2 ^ (- ep - 1) = 2 ^ 45 * 2 ^ (-46 - ep)).
    { rewrite <- Z.pow_add_r by lia. f_equal. lia. }
    assert (Hk : (Z.pos mp + 2 ^ (- ep - 1)) / 2 ^ (- ep) = 0).
    { apply Z.div_small. rewrite G1, G2. nia. }
    rewrite Hk. reflexivity.
Qed.

(** Away from exact halves the pass rate is the percentage rounded to the
    nearest integer. *)
Lemma pass_rate_away_from_ties a b :
  0 <= a <= b -> 0 < b < 2 ^ 32 ->
  (200 * a + b) mod (2 * b) <> 0 ->
  pass_rate a b = js_of_Z (round_half_up_percent a b).
Proof.
  intros [Ha Hab] Hb Htie. unfold round_half_up_percent.
  set (n := (200 * a + b) / (2 * b)).
  pose proof (Z.div_mod (200 * a + b) (2 * b) ltac:(lia)) as DM. fold n in DM.
  pose proof (Z.mod_pos_bound (200 * a + b) (2 * b) ltac:(lia)) as MB.
  assert (Hn0 : 0 <= n) by (apply Z.div_pos; lia).
  assert (Hn1 : n <= 100) by nia.
  assert (B53 : 2 ^ 32 < 2 ^ 53) by (apply Z.pow_lt_mono_r; lia).
  destruct (Z.eq_dec a 0) as [->|Ha0].
  { assert (n = 0) as -> by (unfold n; apply Z.div_small; lia).
    unfold pass_rate.
    destruct (js_of_Z_pos b ltac:(lia)) as (mb & eb & Eb & _). rewrite Eb.
    reflexivity. }
  destruct (Z.eq_dec a b) as [->|Hne].
  { assert (n = 100) as -> by nia. apply pass_rate_all. lia. }
  unfold pass_rate.
  destruct (js_of_Z_pos a ltac:(lia)) as (ma & ea & Ea & Hea & Va).
  destruct (js_of_Z_pos b ltac:(lia)) as (mb & eb & Eb & Heb & Vb).
  rewrite Ea, Eb.
  set (j := (a * 2 ^ 53) / b).
  pose proof (Z.div_mod (a * 2 ^ 53) b ltac:(lia)) as DJ. fold j in DJ.
  pose proof (Z.mod_pos_bound (a * 2 ^ 53) b ltac:(lia)) as MJ.
  assert (Hj0 : 0 < j) by nia.
  assert (Hj1 : j + 1 < 2 ^ 53) by nia.
  assert (Pa : 0 < 2 ^ (- ea)) by (apply Z.pow_pos_nonneg; lia).
  assert (Pb : 0 < 2 ^ (- eb)) by (apply Z.pow_pos_nonneg; lia).
  assert (Ps : 2 ^ (53 + ea - eb) * 2 ^ (- ea) = 2 ^ 53 * 2 ^ (- eb)).
  { rewrite <- !Z.pow_add_r by lia. f_equal. lia. }
  destruct (js_div_between ma ea mb eb j (j + 1) Hea Heb Hj0 ltac:(lia))
    as (md & ed & Ed & Hed & Hmd).
  - rewrite Va, Vb.
    replace (a * 2 ^ (- ea) * 2 ^ (53 + ea - eb))
      with (a * (2 ^ (53 + ea - eb) * 2 ^ (- ea))) by ring.
    rewrite Ps. nia.
  - rewrite Va, Vb.
    replace (a * 2 ^ (- ea) * 2 ^ (53 + ea - eb))
      with (a * (2 ^ (53 + ea - eb) * 2 ^ (- ea))) by ring.
    rewrite Ps. nia.
  - rewrite Ed.
    destruct (Z.eq_dec n 0) as [->|Hn].
    + apply (round_percent_small md ed (j + 1)); try lia. nia.
    + apply (round_percent_inside md ed j (j + 1) n); try lia; nia.
Qed.

(** ** The model on known values *)

Example js_div_one_tenth :
  js_div (js_of_Z 1) (js_of_Z 10) = S754_finite false 7205759403792794 (-56).
Proof. reflexivity. Qed.

Example Math_round_halves :
  Math_round (js_div (js_of_Z 5) (js_of_Z 2)) = js_of_Z 3 /\
  Math_round (js_div (js_of_Z (-5)) (js_of_Z 2)) = js_of_Z (-2) /\
  Math_round (js_div (js_of_Z (-1)) (js_of_Z 2)) = S754_zero true /\
  Math_round (js_div (js_of_Z 115) (js_of_Z 2)) = js_of_Z 58.
Proof. repeat split. Qed.

Example Number_of_fields :
  Number JUndefined = INaN /\ Number JNull = IVal 0 /\
  Number (JString "") = IVal 0 /\
  Number (JString " 1700000000000 ") = IVal 1700000000000 /\
  Number (JString "-12") = IVal (-12) /\ Number (JString "12px") = INaN.
Proof. repeat split. Qed.

Example toISOString_dates :
  Date_toISOString (IVal 0) = Some "1970-01-01T00:00:00.000Z" /\
  Date_toISOString (IVal 1700000000000) = Some "2023-11-14T22:13:20.000Z" /\
  Date_toISOString (IVal 951868799999) = Some "2000-02-29T23:59:59.999Z" /\
  Date_toISOString (IVal (-1)) = Some "1969-12-31T23:59:59.999Z" /\
  Date_toISOString (IVal 8640000000000000) = Some "+275760-09-13T00:00:00.000Z" /\
  Date_toISOString (IVal 8640000000000001) = None /\
  Date_toISOString INaN = None.
Proof. repeat split. Qed.

Example status_matching_ignores_case :
  isDone (labelled (JUndefined, JUndefined, JUndefined) "Done" JNull) = true /\
  isDone (labelled (JUndefined, JUndefined, JUndefined) "done" JNull) = true /\
  isInProgress (labelled (JUndefined, JUndefined, JUndefined) "In Review" JNull) = true.
Proof. repeat split. Qed.

(** The earlier [main] computes the snapshot of [computeStats]. *)
Lemma Part000_main_stats_computeStats F B sevenDaysAgo :
  Part000.main_stats F B sevenDaysAgo
  = (Snapshot.stats (computeStats F B sevenDaysAgo),
     Snapshot.bugs (computeStats F B sevenDaysAgo)).
Proof. reflexivity. Qed.

(** ** Counting *)

Lemma Array_length_nonneg {A} (l : list A) : 0 <= Array_length l.
Proof. unfold Array_length. lia. Qed.

Lemma Array_length_app {A} (l1 l2 : list A) :
  Array_length (l1 ++ l2) = Array_length l1 + Array_length l2.
Proof. unfold Array_length. rewrite length_app. lia. Qed.

Lemma Array_length_filter_le {A} (f : A -> bool) (l : list A) :
  Array_length (filter f l) <= Array_length l.
Proof.
  unfold Array_length.
  induction l as [|x l IH]; cbn [filter List.length negb]; [lia|].
  destruct (f x); cbn [List.length negb]; rewrite ?Nat2Z.inj_succ; lia.
Qed.

Lemma Array_length_filter_split {A} (f : A -> bool) (l : list A) :
  Array_length (filter (fun x => negb (f x)) l) + Array_length (filter f l)
  = Array_length l.
Proof.
  unfold Array_length.
  induction l as [|x l IH]; cbn [filter List.length negb]; [lia|].
  destruct (f x); cbn [List.length negb]; rewrite ?Nat2Z.inj_succ; lia.
Qed.

Lemma Array_length_filter_insert {A} (f : A -> bool) (l1 l2 : list A) (x : A) :
  Array_length (filter f (l1 ++ x :: l2))
  = Array_length (filter f (l1 ++ l2)) + (if f x then 1 else 0).
Proof.
  rewrite !filter_app. cbn [filter]. rewrite !Array_length_app.
  destruct (f x); [|lia].
  unfold Array_length. cbn [List.length]. rewrite Nat2Z.inj_succ. lia.
Qed.

Lemma isDone_labelled o label c :
  isDone (labelled o label c) = existsb (String.eqb (toLowerCase label)) DONE_STATUSES.
Proof. destruct o as [[n cr] u]. reflexivity. Qed.

Lemma isInProgress_labelled o label c :
  isInProgress (labelled o label c)
  = existsb (String.eqb (toLowerCase label)) IN_PROGRESS_STATUSES.
Proof. destruct o as [[n cr] u]. reflexivity. Qed.

Lemma date_closed_labelled o label c : Task.date_closed (labelled o label c) = c.
Proof. destruct o as [[n cr] u]. reflexivity. Qed.

Lemma closedInRange_at o label ms sinceMs :
  closedInRange sinceMs (labelled o label (JString (Z_to_string ms)))
  = existsb (String.eqb (toLowerCase label)) DONE_STATUSES && (sinceMs <=? ms).
Proof.
  unfold closedInRange.
  rewrite isDone_labelled, date_closed_labelled, Number_Z_to_string. reflexivity.
Qed.

Lemma closedInRange_not_done sinceMs t : isDone t = false -> closedInRange sinceMs t = false.
Proof. unfold closedInRange. now intros ->. Qed.

Lemma filter_repeat_true {A} (f : A -> bool) x n : f x = true -> filter f (repeat x n) = repeat x n.
Proof. intros H. induction n; simpl; [reflexivity|]. now rewrite H, IHn. Qed.

(** C1.  The pass rate is meant to be [100 * featuresShipped /
    (featuresShipped + bugsClosedInRange)] rounded to the nearest integer,
    halves up.  With 23 features and 17 bugs closed in the 7-day window the
    exact percentage is 57.5, which rounds to 58; [computeStats] divides
    first and multiplies after, the binary64 product is one unit in the last
    place below 57.5 (57.49999999999999), and it returns 57. *)
Theorem C1_qaPassRate_tie_rounds_down :
  let now := 1700000000000 in
  let s := computeStats (repeat (done_at (now - 2 * msPerDay)) 23)
                        (repeat (done_at (now - 1 * msPerDay)) 17)
                        (now - 7 * 24 * 60 * 60 * 1000) in
  Stats.featuresShipped (Snapshot.stats s) = 23 /\
  BugStats.resolved (Snapshot.bugs s) = 17 /\
  Stats.qaPassRate (Snapshot.stats s) = js_of_Z 57 /\
  spec_qaPassRate 23 17 = js_of_Z 58 /\
  js_of_Z 57 <> js_of_Z 58 /\
  js_mul (js_div (js_of_Z 23) (js_of_Z 40)) (js_of_Z 100)
  = S754_finite false 8092405580431359 (-47) /\
  js_div (js_of_Z 115) (js_of_Z 2) = S754_finite false 8092405580431360 (-47).
Proof.
  cbv zeta.
  assert (H2 : closedInRange (1700000000000 - 7 * 24 * 60 * 60 * 1000)
                 (done_at (1700000000000 - 2 * msPerDay)) = true) by reflexivity.
  assert (H1 : closedInRange (1700000000000 - 7 * 24 * 60 * 60 * 1000)
                 (done_at (1700000000000 - 1 * msPerDay)) = true) by reflexivity.
  unfold computeStats.
  rewrite !(filter_repeat_true _ _ _ H2), !(filter_repeat_true _ _ _ H1).
  unfold Array_length. rewrite !repeat_length.
  cbn [Snapshot.stats Snapshot.bugs Stats.featuresShipped Stats.qaPassRate BugStats.resolved].
  repeat split; try reflexivity.
  vm_compute. discriminate.
Qed.

(** C2, as stated, fails: with one feature shipped in the window and no bug
    closed the pass rate is 100 although the denominator is 1. *)
Lemma C2_hundred_with_closed_tasks :
  ~ hundred_iff_empty_window [done_at 2000] [] 1000.
Proof.
  unfold hundred_iff_empty_window. cbv zeta.
  intros [H _]. specialize (H eq_refl). vm_compute in H. discriminate.
Qed.

Lemma closed_counts_sized featureTasks bugTasks sinceMs :
  array_sized (featureTasks ++ bugTasks) ->
  let fs := Array_length (filter (closedInRange sinceMs) featureTasks) in
  let bc := Array_length (filter (closedInRange sinceMs) bugTasks) in
  0 <= fs /\ 0 <= bc /\ fs + bc < 2 ^ 53.
Proof.
  unfold array_sized. rewrite Array_length_app. intros H. cbv zeta.
  pose proof (Array_length_filter_le (closedInRange sinceMs) featureTasks).
  pose proof (Array_length_filter_le (closedInRange sinceMs) bugTasks).
  pose proof (Array_length_nonneg (filter (closedInRange sinceMs) featureTasks)).
  pose proof (Array_length_nonneg (filter (closedInRange sinceMs) bugTasks)).
  assert (2 ^ 32 < 2 ^ 53) by (apply Z.pow_lt_mono_r; lia).
  lia.
Qed.

Lemma qaPassRate_percentage featureTasks bugTasks sinceMs :
  array_sized (featureTasks ++ bugTasks) ->
  exists k, 0 <= k <= 100 /\
    Stats.qaPassRate (Snapshot.stats (computeStats featureTasks bugTasks sinceMs))
    = js_of_Z k.
Proof.
  intros H. destruct (closed_counts_sized _ _ sinceMs H) as (Hf & Hb & Hs).
  unfold computeStats. cbn [Snapshot.stats Stats.qaPassRate].
  destruct (0 <? _) eqn:E.
  - apply Z.ltb_lt in E. apply pass_rate_percentage; lia.
  - exists 100. split; [lia|reflexivity].
Qed.

(** Unless the exact percentage falls on a half, [computeStats] returns what
    the specification words. *)
Lemma qaPassRate_away_from_ties featureTasks bugTasks sinceMs :
  array_sized (featureTasks ++ bugTasks) ->
  let s := computeStats featureTasks bugTasks sinceMs in
  let featuresShipped := Stats.featuresShipped (Snapshot.stats s) in
  let bugsClosedInRange := BugStats.resolved (Snapshot.bugs s) in
  let totalShipped := featuresShipped + bugsClosedInRange in
  (200 * featuresShipped + totalShipped) mod (2 * totalShipped) <> 0 ->
  Stats.qaPassRate (Snapshot.stats s)
  = spec_qaPassRate featuresShipped bugsClosedInRange.
Proof.
  intros H. cbv zeta.
  destruct (closed_counts_sized _ _ sinceMs H) as (Hf & Hb & Hs).
  pose proof (Array_length_filter_le (closedInRange sinceMs) featureTasks).
  pose proof (Array_length_filter_le (closedInRange sinceMs) bugTasks).
  unfold array_sized in H. rewrite Array_length_app in H.
  unfold computeStats, spec_qaPassRate.
  cbn [Snapshot.stats Snapshot.bugs Stats.qaPassRate Stats.featuresShipped BugStats.resolved].
  intros Htie.
  destruct (0 <? _) eqn:E; [|reflexivity].
  apply Z.ltb_lt in E. apply pass_rate_away_from_ties; [lia|lia|exact Htie].
Qed.

(** C2, amended.  For collections that fit in an array, the pass rate of
    [computeStats] is a whole number between 0 and 100; it is 100 when
    nothing was closed in the window, and also whenever no bug was. *)
Theorem C2_qaPassRate_range (featureTasks bugTasks : list Task.t) (sinceMs : Z) :
  array_sized (featureTasks ++ bugTasks) ->
  let s := computeStats featureTasks bugTasks sinceMs in
  let featuresShipped := Stats.featuresShipped (Snapshot.stats s) in
  let bugsClosedInRange := BugStats.resolved (Snapshot.bugs s) in
  (exists k, 0 <= k <= 100 /\ Stats.qaPassRate (Snapshot.stats s) = js_of_Z k) /\
  (featuresShipped + bugsClosedInRange = 0 ->
   Stats.qaPassRate (Snapshot.stats s) = js_of_Z 100) /\
  (bugsClosedInRange = 0 ->
   Stats.qaPassRate (Snapshot.stats s) = js_of_Z 100).
Proof.
  intros H. cbv zeta. split; [now apply qaPassRate_percentage|].
  destruct (closed_counts_sized _ _ sinceMs H) as (Hf & Hb & Hs).
  unfold computeStats.
  cbn [Snapshot.stats Snapshot.bugs Stats.qaPassRate Stats.featuresShipped BugStats.resolved].
  split.
  - intros E. rewrite E. reflexivity.
  - intros E. rewrite E, Z.add_0_r.
    destruct (0 <? _) eqn:E0; [|reflexivity].
    apply Z.ltb_lt in E0. apply pass_rate_all. lia.
Qed.

(** C2 at one shipped feature and no bug. *)
Lemma C2_qaPassRate_range_witness :
  array_sized ([done_at 2000] ++ []) /\
  Stats.qaPassRate (Snapshot.stats (computeStats [done_at 2000] [] 1000)) = js_of_Z 100.
Proof.
  assert (H : array_sized ([done_at 2000] ++ [])) by (unfold array_sized; vm_compute; reflexivity).
  split; [exact H|].
  apply (C2_qaPassRate_range [done_at 2000] [] 1000 H). reflexivity.
Defined.

(** C3.  [openBugs] plus the number of bug tasks that are done is the number
    of bug tasks, for every bug collection and cutoff; the [open] counter of
    the bug statistics is the same number. *)
Theorem C3_openBugs_complement (featureTasks bugTasks : list Task.t) (sinceMs : Z) :
  let s := computeStats featureTasks bugTasks sinceMs in
  Stats.openBugs (Snapshot.stats s) + Array_length (filter isDone bugTasks)
  = Array_length bugTasks /\
  BugStats.open (Snapshot.bugs s) = Stats.openBugs (Snapshot.stats s).
Proof.
  cbv zeta. unfold computeStats.
  cbn [Snapshot.stats Snapshot.bugs Stats.openBugs BugStats.open].
  split; [apply Array_length_filter_split|reflexivity].
Qed.

(** C4.  Three features (two "done", closed two days before [now], one "in
    progress") and two bugs (one "closed" a day before [now], one "new"),
    with the cutoff of the 7-day window: two features shipped, one in
    progress, one bug resolved, one open, pass rate 67.  The other fields of
    the tasks are arbitrary. *)
Theorem C4_scenario (now : Z) (o1 o2 o3 o4 o5 : jsval * jsval * jsval)
                    (c3 c5 : jsval) :
  let features :=
    [labelled o1 "done" (JString (Z_to_string (now - 2 * msPerDay)));
     labelled o2 "done" (JString (Z_to_string (now - 2 * msPerDay)));
     labelled o3 "in progress" c3] in
  let bugs :=
    [labelled o4 "closed" (JString (Z_to_string (now - 1 * msPerDay)));
     labelled o5 "new" c5] in
  let s := computeStats features bugs (now - 7 * 24 * 60 * 60 * 1000) in
  Stats.featuresShipped (Snapshot.stats s) = 2 /\
  Stats.inProgress (Snapshot.stats s) = 1 /\
  BugStats.resolved (Snapshot.bugs s) = 1 /\
  Stats.openBugs (Snapshot.stats s) = 1 /\
  Stats.qaPassRate (Snapshot.stats s) = js_of_Z 67.
Proof.
  cbv zeta. unfold computeStats.
  cbn [Snapshot.stats Snapshot.bugs Stats.featuresShipped Stats.inProgress
       Stats.openBugs Stats.qaPassRate BugStats.resolved].
  cbn [filter].
  rewrite !closedInRange_at.
  rewrite !(closedInRange_not_done _ (labelled _ "in progress" _))
    by (rewrite isDone_labelled; reflexivity).
  rewrite !(closedInRange_not_done _ (labelled _ "new" _))
    by (rewrite isDone_labelled; reflexivity).
  rewrite !isInProgress_labelled, !isDone_labelled.
  replace (now - 7 * 24 * 60 * 60 * 1000 <=? now - 2 * msPerDay) with true
    by (symmetry; apply Z.leb_le; unfold msPerDay; lia).
  replace (now - 7 * 24 * 60 * 60 * 1000 <=? now - 1 * msPerDay) with true
    by (symmetry; apply Z.leb_le; unfold msPerDay; lia).
  repeat split.
Qed.

(** C6.  With a list identifier that is unset or empty, [getListTasks]
    returns the empty collection, throws nothing and leaves the state as it
    was: no request is made. *)
Theorem C6_unset_list_is_empty (I : Inputs) (extraParams : list (string * string))
                               (st : State) :
  getListTasks I None extraParams st = (Ok [], st) /\
  getListTasks I (Some "") extraParams st = (Ok [], st) /\
  requests (snd (getListTasks I None extraParams st)) = requests st /\
  requests (snd (getListTasks I (Some "") extraParams st)) = requests st.
Proof. repeat split. Qed.

(** ** Sorting *)

Lemma sort_insert_perm {A} (cmp : A -> A -> intnum) x l :
  Permutation (x :: l) (sort_insert cmp x l).
Proof.
  induction l as [|y l IH]; cbn [sort_insert]; [reflexivity|].
  destruct (sorts_before cmp x y); [reflexivity|].
  rewrite perm_swap. now constructor.
Qed.

Lemma Array_sort_perm {A} (cmp : A -> A -> intnum) l :
  Permutation l (Array_sort cmp l).
Proof.
  induction l as [|x l IH]; cbn [Array_sort]; [constructor|].
  rewrite <- sort_insert_perm. now constructor.
Qed.

Lemma sorts_before_numeric (x y : Task.t) :
  numeric_closure x -> numeric_closure y ->
  sorts_before byClosedDesc x y = (closed_ms y <=? closed_ms x).
Proof.
  unfold numeric_closure, sorts_before, byClosedDesc, closed_ms.
  destruct (Number (Task.date_closed x)), (Number (Task.date_closed y));
    try congruence.
  intros _ _. cbn [num_sub].
  destruct (z0 <=? z) eqn:E.
  - apply Z.leb_le in E. apply Z.leb_le. lia.
  - apply Z.leb_gt in E. apply Z.leb_gt. lia.
Qed.

Lemma sort_insert_descending x l :
  numeric_closure x -> Forall numeric_closure l ->
  closed_descending l -> closed_descending (sort_insert byClosedDesc x l).
Proof.
  intros Hx. induction l as [|y l IH]; intros Hl Hs; cbn [sort_insert].
  - cbn. split; [intros u []|exact I].
  - inversion Hl as [|? ? Hy Hl']; subst.
    rewrite (sorts_before_numeric _ _ Hx Hy).
    destruct Hs as [Hy_max Hs].
    destruct (closed_ms y <=? closed_ms x) eqn:E.
    + apply Z.leb_le in E. cbn [closed_descending]. repeat split; try assumption.
      intros u [<-|Hu]; [assumption|]. specialize (Hy_max u Hu). lia.
    + apply Z.leb_gt in E. cbn [closed_descending]. split; [|now apply IH].
      intros u Hu.
      apply (Permutation_in _ (Permutation_sym (sort_insert_perm byClosedDesc x l))) in Hu.
      destruct Hu as [<-|Hu]; [lia|now apply Hy_max].
Qed.

Lemma Array_sort_descending l :
  Forall numeric_closure l -> closed_descending (Array_sort byClosedDesc l).
Proof.
  induction l as [|x l IH]; intros H; cbn [Array_sort]; [exact I|].
  inversion H as [|? ? Hx Hl]; subst.
  apply sort_insert_descending; [assumption| |now apply IH].
  apply Forall_forall. intros u Hu.
  apply (Permutation_in _ (Permutation_sym (Array_sort_perm byClosedDesc l))) in Hu.
  revert u Hu. now apply Forall_forall.
Qed.

Lemma In_firstn {A} n (l : list A) x : In x (firstn n l) -> In x l.
Proof.
  revert l. induction n as [|n IH]; intros [|y l]; cbn [firstn In]; try tauto.
  intros [->|H]; [now left|right; now apply IH].
Qed.

Lemma closed_descending_firstn n l :
  closed_descending l -> closed_descending (firstn n l).
Proof.
  revert l. induction n as [|n IH]; intros [|x l] H; cbn [firstn]; try exact I.
  destruct H as [Hx Hl]. split; [|now apply IH].
  intros u Hu. apply Hx. revert Hu. apply In_firstn.
Qed.

Lemma Array_map_throwing_ok {A B} (f : A -> result B) l ys :
  Array_map_throwing f l = Ok ys -> Forall2 (fun x y => f x = Ok y) l ys.
Proof.
  revert ys. induction l as [|x l IH]; intros ys; cbn [Array_map_throwing].
  - intros [= <-]. constructor.
  - destruct (f x) as [y|e] eqn:Ex; [|discriminate].
    destruct (Array_map_throwing f l) as [ys'|e]; [|discriminate].
    intros [= <-]. constructor; [assumption|now apply IH].
Qed.

Lemma recentEntry_ok t e : recentEntry t = Ok e -> entry_of t e.
Proof.
  unfold recentEntry, entry_of.
  destruct (Date_toISOString (Number (Task.date_closed t))) as [iso|]; [|discriminate].
  intros [= <-]. repeat split.
Qed.

(** What [build_data] returns when it returns. *)
Lemma build_data_ok I F B st ranges data st' :
  build_data I F B st = (Ok (ranges, data), st') ->
  ranges = combine window_names (map (computeStats F B) (window_cutoffs I (clock_reads st))) /\
  Report.ranges data = ranges /\
  recentActivity F B = Ok (Report.recentActivity data) /\
  Report.stats data = Snapshot.stats (computeStats F B (clock I (S (clock_reads st)) - 7 * 24 * 60 * 60 * 1000)) /\
  Report.bugs data = Snapshot.bugs (computeStats F B (clock I (S (clock_reads st)) - 7 * 24 * 60 * 60 * 1000)) /\
  data_json st' = data_json st /\ exit_code st' = exit_code st.
Proof.
  unfold build_data, compute_ranges, daysAgo, startOfYear, now_iso, Date_now, bind, ret, lift, throw.
  cbn [clock_reads requests console data_json exit_code].
  destruct (recentActivity F B) as [recent|e]; [|discriminate].
  destruct (Date_toISOString _) as [iso|]; [|discriminate].
  cbn [obj_get String.eqb Ascii.eqb Bool.eqb].
  intros [= <- <- <-]. cbn. repeat split.
Qed.

(** C5.  When the document is built from collections whose candidate tasks
    carry numeric closure timestamps, its [recentActivity] has at most five
    entries; they are the first five of the done tasks with a closure
    timestamp, sorted by closure time descending; and each entry is its
    task reduced to title, status, ISO closure time and URL. *)
Theorem C5_recentActivity (I : Inputs) (allFeatureTasks allBugTasks : list Task.t)
    (st st' : State) (ranges : list (string * Snapshot.t)) (data : Report.t) :
  (forall t, In t (allFeatureTasks ++ allBugTasks) ->
             isRecentCandidate t = true -> numeric_closure t) ->
  build_data I allFeatureTasks allBugTasks st = (Ok (ranges, data), st') ->
  exists sorted tasks,
    Permutation (filter isRecentCandidate (allFeatureTasks ++ allBugTasks)) sorted /\
    closed_descending sorted /\
    tasks = firstn 5 sorted /\
    (List.length (Report.recentActivity data) <= 5)%nat /\
    Forall2 entry_of tasks (Report.recentActivity data) /\
    closed_descending tasks /\
    (forall t, In t tasks ->
       In t (allFeatureTasks ++ allBugTasks) /\ isDone t = true /\
       ToBoolean (Task.date_closed t) = true).
Proof.
  intros Hnum Hb.
  apply build_data_ok in Hb as (_ & _ & Hrec & _).
  set (cands := filter isRecentCandidate (allFeatureTasks ++ allBugTasks)) in *.
  assert (Hc : Forall numeric_closure cands).
  { apply Forall_forall. intros t Ht. apply filter_In in Ht as [Hin Hf]. now apply Hnum. }
  exists (Array_sort byClosedDesc cands), (recentTasks allFeatureTasks allBugTasks).
  unfold recentActivity in Hrec. apply Array_map_throwing_ok in Hrec.
  assert (Hlen : (List.length (recentTasks allFeatureTasks allBugTasks) <= 5)%nat).
  { unfold recentTasks. rewrite length_firstn. lia. }
  repeat split.
  - apply Array_sort_perm.
  - now apply Array_sort_descending.
  - rewrite <- (Forall2_length Hrec). exact Hlen.
  - revert Hrec. apply Forall2_impl. intros t e. apply recentEntry_ok.
  - unfold recentTasks. apply closed_descending_firstn. now apply Array_sort_descending.
  - unfold recentTasks in H. apply In_firstn in H.
    apply (Permutation_in _ (Permutation_sym (Array_sort_perm byClosedDesc _))) in H.
    apply filter_In in H. tauto.
  - unfold recentTasks in H. apply In_firstn in H.
    apply (Permutation_in _ (Permutation_sym (Array_sort_perm byClosedDesc _))) in H.
    apply filter_In in H as [_ H]. unfold isRecentCandidate in H.
    now apply andb_true_iff in H.
  - unfold recentTasks in H. apply In_firstn in H.
    apply (Permutation_in _ (Permutation_sym (Array_sort_perm byClosedDesc _))) in H.
    apply filter_In in H as [_ H]. unfold isRecentCandidate in H.
    now apply andb_true_iff in H.
Qed.

(** C5 on three closed tasks. *)
Lemma C5_recentActivity_witness :
  exists ranges data st',
    build_data (example_inputs (Json None)) [done_at 1000; done_at 3000] [done_at 2000] initial
    = (Ok (ranges, data), st') /\
    exists sorted tasks,
      Permutation (filter isRecentCandidate ([done_at 1000; done_at 3000] ++ [done_at 2000])) sorted /\
      closed_descending sorted /\
      tasks = firstn 5 sorted /\
      (List.length (Report.recentActivity data) <= 5)%nat /\
      Forall2 entry_of tasks (Report.recentActivity data) /\
      closed_descending tasks /\
      (forall t, In t tasks ->
         In t ([done_at 1000; done_at 3000] ++ [done_at 2000]) /\ isDone t = true /\
         ToBoolean (Task.date_closed t) = true).
Proof.
  do 3 eexists. split; [vm_compute; reflexivity|].
  eapply (C5_recentActivity (example_inputs (Json None))
            [done_at 1000; done_at 3000] [done_at 2000] initial).
  - intros t [<-|[<-|[<-|[]]]] _; vm_compute; discriminate.
  - vm_compute. reflexivity.
Defined.

(** ** The run *)

Lemma keeps_file_ret {A} (a : A) : keeps_file (ret a).
Proof. intros st. now split. Qed.

Lemma keeps_file_throw {A} e : keeps_file (@throw A e).
Proof. intros st. now split. Qed.

Lemma keeps_file_lift {A} (r : result A) : keeps_file (lift r).
Proof. intros st. now split. Qed.

Lemma keeps_file_bind {A B} (m : M A) (k : A -> M B) :
  keeps_file m -> (forall a, keeps_file (k a)) -> keeps_file (bind m k).
Proof.
  intros Hm Hk st. unfold bind. specialize (Hm st).
  destruct (m st) as [[a|e] st1]; cbn [snd] in *.
  - destruct (Hk a st1) as [H1 H2]. destruct Hm as [H3 H4]. split; congruence.
  - exact Hm.
Qed.

Lemma keeps_file_console_log line : keeps_file (console_log line).
Proof. intros st. now split. Qed.

Lemma keeps_file_Date_now I : keeps_file (Date_now I).
Proof. intros st. now split. Qed.

Lemma keeps_file_fetch I url : keeps_file (fetch I url).
Proof. intros st. now split. Qed.

Lemma keeps_file_Promise_all2 {A B} b (p : M A) (q : M B) :
  keeps_file p -> keeps_file q -> keeps_file (Promise_all2 b p q).
Proof.
  intros Hp Hq st. unfold Promise_all2. specialize (Hp st).
  destruct (p st) as [r1 st1]. specialize (Hq st1).
  destruct (q st1) as [r2 st2]. cbn [snd] in *.
  destruct Hp, Hq.
  destruct r1, r2; cbn [snd]; split; congruence.
Qed.

Create HintDb keeps.
#[local] Hint Resolve keeps_file_ret keeps_file_throw keeps_file_lift
  keeps_file_console_log keeps_file_Date_now keeps_file_fetch
  keeps_file_Promise_all2 : keeps.

Ltac keeps_step :=
  first [ apply keeps_file_bind; [|intros ?] | solve [auto with keeps] ].

Lemma keeps_file_forEach {A} (f : A -> M unit) l :
  (forall x, keeps_file (f x)) -> keeps_file (forEach f l).
Proof.
  intros Hf. induction l as [|x l IH]; cbn [forEach]; [apply keeps_file_ret|].
  apply keeps_file_bind; [apply Hf|intros _; exact IH].
Qed.

Lemma keeps_file_clickup I path params : keeps_file (clickup I path params).
Proof.
  unfold clickup. keeps_step; [keeps_step|].
  destruct a; auto with keeps.
Qed.

Lemma keeps_file_getListTasks I listId extra : keeps_file (getListTasks I listId extra).
Proof.
  unfold getListTasks. destruct (negb (is_set listId)); [auto with keeps|].
  keeps_step; [apply keeps_file_clickup|auto with keeps].
Qed.

Lemma keeps_file_fetch_all I : keeps_file (fetch_all I).
Proof.
  unfold fetch_all. apply keeps_file_Promise_all2; apply keeps_file_getListTasks.
Qed.

Lemma keeps_file_daysAgo I n : keeps_file (daysAgo I n).
Proof. unfold daysAgo. repeat keeps_step. Qed.

Lemma keeps_file_build_data I F B : keeps_file (build_data I F B).
Proof.
  unfold build_data, compute_ranges, startOfYear, now_iso.
  repeat (apply keeps_file_bind;
          [first [apply keeps_file_daysAgo | auto with keeps]|intros ?]);
    try solve [auto with keeps].
  - repeat (apply keeps_file_bind; [auto with keeps|intros ?]); auto with keeps.
    destruct (Date_toISOString _); auto with keeps.
  - destruct (obj_get _ _); auto with keeps.
Qed.

Lemma keeps_file_fetch_and_aggregate I : keeps_file (fetch_and_aggregate I).
Proof.
  unfold fetch_and_aggregate.
  apply keeps_file_bind; [auto with keeps|intros _].
  apply keeps_file_bind; [apply keeps_file_fetch_all|intros [F B]].
  apply keeps_file_bind; [auto with keeps|intros _].
  apply keeps_file_bind; [auto with keeps|intros _].
  apply keeps_file_build_data.
Qed.

Lemma forEach_console_log {A} (f : A -> string) (l : list A) st :
  fst (forEach (fun x => console_log (f x)) l st) = Ok tt.
Proof.
  revert st. induction l as [|x l IH]; intros st; cbn [forEach]; [reflexivity|].
  unfold bind. cbn [console_log]. apply IH.
Qed.

(** The tasks a fetch returns come from the upstream API or are none. *)
Lemma getListTasks_sized I listId extra st tasks st' :
  upstream_sized I ->
  getListTasks I listId extra st = (Ok tasks, st') ->
  Array_length tasks < 2 ^ 31.
Proof.
  intros HI. unfold getListTasks.
  destruct (negb (is_set listId)).
  - intros [= <- _]. reflexivity.
  - unfold clickup, bind, fetch, ret, throw.
    destruct (upstream I _) as [e|s b|e|[ts|]] eqn:Eu; try discriminate.
    + intros [= <- _]. exact (HI _ _ Eu).
    + intros [= <- _]. reflexivity.
Qed.

Lemma fetch_all_sized I st F B st' :
  upstream_sized I ->
  fetch_all I st = (Ok (F, B), st') -> array_sized (F ++ B).
Proof.
  intros HI. unfold fetch_all, Promise_all2.
  destruct (getListTasks I (FEATURES_LIST I) [] st) as [r1 st1] eqn:E1.
  destruct (getListTasks I (BUGS_LIST I) [] st1) as [r2 st2] eqn:E2.
  destruct r1 as [F'|e1], r2 as [B'|e2]; try discriminate.
  intros [= <- <- _].
  pose proof (getListTasks_sized _ _ _ _ _ _ HI E1).
  pose proof (getListTasks_sized _ _ _ _ _ _ HI E2).
  unfold array_sized. rewrite Array_length_app.
  change (2 ^ 32) with (2 ^ 31 + 2 ^ 31). lia.
Qed.

Lemma computeStats_counts_ok F B sinceMs :
  array_sized (F ++ B) -> snapshot_counts_ok (computeStats F B sinceMs).
Proof.
  intros H. unfold snapshot_counts_ok.
  repeat (split; [apply Array_length_nonneg|]).
  now apply qaPassRate_percentage.
Qed.

(** What [fetch_and_aggregate] returns when it returns: the document built
    from the two fetched collections. *)
Lemma fetch_and_aggregate_ok I st ranges data st1 :
  fetch_and_aggregate I st = (Ok (ranges, data), st1) ->
  exists F B st0 st0' st2,
    fetch_all I st0 = (Ok (F, B), st0') /\
    build_data I F B st2 = (Ok (ranges, data), st1).
Proof.
  unfold fetch_and_aggregate. unfold bind at 1. cbn [console_log].
  unfold bind at 1.
  destruct (fetch_all I _) as [[[F B]|e] st0'] eqn:Ef; [|discriminate].
  unfold bind at 1. cbn [console_log]. unfold bind at 1. cbn [console_log].
  intros Hb. exists F, B. do 3 eexists. split; [exact Ef|exact Hb].
Qed.

(** A run that ends with status 0 has fetched both collections, built the
    document from them and written it. *)
Lemma successful_run I st :
  exit_code (script I st) = Some 0 ->
  exists F B st0 st0' st2 ranges data st1,
    fetch_all I st0 = (Ok (F, B), st0') /\
    build_data I F B st2 = (Ok (ranges, data), st1) /\
    data_json (script I st) = Written data.
Proof.
  intros Hexit. unfold script in *.
  destruct (negb (is_set (TOKEN I)) || negb (is_set (TEAM_ID I))); [discriminate|].
  unfold main, bind in *.
  destruct (fetch_and_aggregate I st) as [[[ranges data]|e] st1] eqn:Ef; [|discriminate].
  unfold writeFileSync in *.
  destruct (write_error I); [discriminate|].
  cbn [console_log] in *.
  pose proof (keeps_file_forEach (fun entry => console_log (summary_line entry)) ranges
                (fun x => keeps_file_console_log _)) as Hk.
  match type of Hexit with
  | context [forEach ?f ?l ?s] =>
      specialize (Hk s); destruct (forEach f l s) as [[[]|e] st2]
  end; [|discriminate].
  cbn [snd data_json process_exit] in *. destruct Hk as [Hk _].
  apply fetch_and_aggregate_ok in Ef as (F & B & st0 & st0' & st3 & Hf & Hb).
  exists F, B, st0, st0', st3, ranges, data, st1. auto.
Qed.

Lemma combine_window_names (snaps : list Snapshot.t) :
  List.length snaps = 5%nat ->
  map fst (combine window_names snaps) = window_names /\
  map snd (combine window_names snaps) = snaps.
Proof.
  destruct snaps as [|a [|b [|c [|d [|e [|f l]]]]]]; try discriminate.
  intros _. split; reflexivity.
Qed.

(** C7.  A run that ends with status 0 has written a document whose
    [ranges] has exactly the keys today, 7d, 30d, 90d and ytd, in this order,
    and every snapshot in it holds non-negative integer counters and a whole
    percentage. *)
Theorem C7_ranges_of_successful_run (I : Inputs) (st : State) :
  exit_code (script I st) = Some 0 ->
  upstream_sized I ->
  exists data,
    data_json (script I st) = Written data /\
    map fst (Report.ranges data) = ["today"; "7d"; "30d"; "90d"; "ytd"] /\
    Forall snapshot_counts_ok (map snd (Report.ranges data)).
Proof.
  intros Hexit HI.
  destruct (successful_run I st Hexit)
    as (F & B & st0 & st0' & st2 & ranges & data & st1 & Hf & Hb & Hw).
  exists data. split; [exact Hw|].
  apply fetch_all_sized in Hf; [|assumption].
  apply build_data_ok in Hb as (Hr & Hd & _).
  rewrite Hd, Hr.
  destruct (combine_window_names
              (map (computeStats F B) (window_cutoffs I (clock_reads st2))) eq_refl)
    as [-> ->].
  split; [reflexivity|].
  apply Forall_forall. intros s Hs. apply in_map_iff in Hs as (c & <- & _).
  now apply computeStats_counts_ok.
Qed.

(** C7 on a run that fetches one task. *)
Lemma C7_ranges_of_successful_run_witness :
  exists data,
    data_json (script (example_inputs (Json (Some [done_at 1699999000000]))) initial)
    = Written data /\
    map fst (Report.ranges data) = ["today"; "7d"; "30d"; "90d"; "ytd"] /\
    Forall snapshot_counts_ok (map snd (Report.ranges data)).
Proof.
  apply (C7_ranges_of_successful_run
           (example_inputs (Json (Some [done_at 1699999000000]))) initial).
  - vm_compute. reflexivity.
  - intros url tasks [= <-]. vm_compute. reflexivity.
Defined.

(** C8.  When a fetch or the aggregation throws, the run reports the failure
    on the error stream, exits with status 1, and the output file is as it
    was: nothing is written before fetch and aggregation have succeeded. *)
Theorem C8_failure_leaves_file (I : Inputs) (st st1 : State) (err : Error) :
  is_set (TOKEN I) = true -> is_set (TEAM_ID I) = true ->
  fetch_and_aggregate I st = (Throw err, st1) ->
  exit_code (script I st) = Some 1 /\
  console (script I st)
  = (console st1 ++ [StdErr ("❌ Update failed: " ++ message err)])%list /\
  data_json (script I st) = data_json st /\
  data_json st1 = data_json st.
Proof.
  intros Ht Hi Hf. unfold script. rewrite Ht, Hi. cbn [negb orb].
  unfold main, bind. rewrite Hf.
  pose proof (keeps_file_fetch_and_aggregate I st) as [Hk _].
  rewrite Hf in Hk. cbn [snd] in Hk.
  cbn [console_error snd process_exit exit_code console data_json].
  repeat split; assumption.
Qed.

(** C8 on an upstream that answers 500. *)
Lemma C8_failure_leaves_file_witness :
  let I := example_inputs (NotOk 500 "Internal Server Error") in
  exit_code (script I initial) = Some 1 /\
  console (script I initial)
  = [StdOut "🔄 Fetching ClickUp data…";
     StdErr "❌ Update failed: ClickUp API /list/42/task → 500: Internal Server Error"] /\
  data_json (script I initial) = Untouched.
Proof.
  cbv zeta.
  destruct (C8_failure_leaves_file
              (example_inputs (NotOk 500 "Internal Server Error")) initial
              (mkState 0
                 [mkRequest "https://api.clickup.com/api/v2/list/42/task?include_closed=true" "pk_token"]
                 [StdOut "🔄 Fetching ClickUp data…"] Untouched None)
              (mkError "ClickUp API /list/42/task → 500: Internal Server Error")
              eq_refl eq_refl eq_refl) as (H1 & H2 & H3 & _).
  repeat split; assumption.
Defined.

(** The five snapshots, each from the fetched collections and its own
    cutoff; only the clock is read. *)
Lemma compute_ranges_eq I F B st :
  compute_ranges I F B st
  = (Ok (combine window_names
           (map (computeStats F B) (window_cutoffs I (clock_reads st)))),
     mkState (5 + clock_reads st) (requests st) (console st)
             (data_json st) (exit_code st)).
Proof. reflexivity. Qed.

(** ** The store *)

Lemma lookup_app (h k : Heap) l c :
  nth_error h l = Some c -> nth_error (h ++ k)%list l = Some c.
Proof.
  intros H. rewrite nth_error_app1; [assumption|].
  apply nth_error_Some. congruence.
Qed.

Lemma constants_loaded_app h k : constants_loaded h -> constants_loaded (h ++ k)%list.
Proof. intros [H1 H2]. split; now apply lookup_app. Qed.

Lemma holds_tasks_app h k a L : holds_tasks h a L -> holds_tasks (h ++ k)%list a L.
Proof.
  intros (refs & Ha & Hr). exists refs. split; [now apply lookup_app|].
  revert Hr. apply Forall2_impl. intros r t. apply lookup_app.
Qed.

Lemma reads_isDone : reads isDone_h isDone.
Proof.
  intros h r t [Hd _] Ht.
  unfold isDone_h, status_lower_h, Array_includes_h, read_task, read_strings, hbind, hret.
  rewrite Ht, Hd. reflexivity.
Qed.

Lemma reads_isInProgress : reads isInProgress_h isInProgress.
Proof.
  intros h r t [_ Hp] Ht.
  unfold isInProgress_h, status_lower_h, Array_includes_h, read_task, read_strings, hbind, hret.
  rewrite Ht, Hp. reflexivity.
Qed.

Lemma reads_closedInRange s : reads (closedInRange_h s) (closedInRange s).
Proof.
  intros h r t Hc Ht. unfold closedInRange_h, hbind.
  rewrite (reads_isDone h r t Hc Ht). unfold closedInRange.
  destruct (isDone t); [|reflexivity].
  unfold read_task, hret. rewrite Ht. reflexivity.
Qed.

Lemma reads_createdInRange s : reads (createdInRange_h s) (createdInRange s).
Proof.
  intros h r t _ Ht. unfold createdInRange_h, read_task, hbind, hret.
  rewrite Ht. reflexivity.
Qed.

Lemma reads_notDone : reads notDone_h (fun t => negb (isDone t)).
Proof.
  intros h r t Hc Ht. unfold notDone_h, hbind.
  rewrite (reads_isDone h r t Hc Ht). reflexivity.
Qed.

Lemma reads_isDeferred : reads isDeferred_h isDeferred.
Proof.
  intros h r t _ Ht.
  unfold isDeferred_h, status_lower_h, read_task, hbind, hret.
  rewrite Ht. reflexivity.
Qed.

(** The loop of [filter] with a callback that only reads: the store is left
    as it was and the references kept are those of the tasks that pass. *)
Lemma filter_from_reads pred p a h refs :
  reads pred p -> constants_loaded h ->
  nth_error h a = Some (CArray refs) ->
  forall rest pre L,
    refs = (pre ++ rest)%list ->
    Forall2 (fun r t => nth_error h r = Some (CTask t)) rest L ->
    exists kept,
      filter_from pred a (List.length pre) (List.length rest) h = Some (kept, h) /\
      Forall2 (fun r t => nth_error h r = Some (CTask t)) kept (filter p L).
Proof.
  intros Hp Hc Ha. induction rest as [|r rest IH]; intros pre L E HL.
  - inversion HL; subst. exists []. split; [reflexivity|constructor].
  - inversion HL as [|? t ? L' Ht HL']; subst.
    destruct (IH (pre ++ [r])%list L') as (kept & Ek & Hk);
      [now rewrite <- app_assoc|assumption|].
    rewrite length_app, Nat.add_comm in Ek. cbn [List.length Nat.add] in Ek.
    cbn [filter_from List.length]. unfold hbind at 1.
    unfold read_elem, hbind at 1, read_array. rewrite Ha.
    rewrite nth_error_app2, Nat.sub_diag by lia. cbn [nth_error]. unfold hret at 1.
    unfold hbind at 1. rewrite (Hp h r t Hc Ht).
    unfold hbind at 1. rewrite Ek. unfold hret.
    cbn [filter]. destruct (p t).
    + exists (r :: kept). split; [reflexivity|now constructor].
    + exists kept. split; [reflexivity|assumption].
Qed.

(** [a.filter(pred).length], then the rest: one new array in the store. *)
Lemma count_step {A} pred p a L (k : Z -> HM A) h :
  reads pred p -> constants_loaded h -> holds_tasks h a L ->
  exists c,
    (a1 <~ Array_filter_h pred a ;; n <~ Array_length_h a1 ;; k n) h
    = k (Array_length (filter p L)) (h ++ [c])%list.
Proof.
  intros Hp Hc (refs & Ha & Hr).
  destruct (filter_from_reads pred p a h refs Hp Hc Ha refs [] L eq_refl Hr)
    as (kept & Ek & Hk).
  exists (CArray kept).
  unfold hbind at 1. unfold Array_filter_h, hbind at 1, read_array. rewrite Ha.
  cbn [List.length] in Ek. unfold hbind at 1. rewrite Ek. unfold alloc.
  unfold hbind at 1, Array_length_h, hbind at 1, read_array.
  rewrite nth_error_app2, Nat.sub_diag by lia. cbn [nth_error]. unfold hret.
  assert (E : Array_length kept = Array_length (filter p L))
    by (unfold Array_length; f_equal; exact (Forall2_length Hk)).
  now rewrite E.
Qed.

(** [[...a, ...b]], then the rest: the new array holds both collections. *)
Lemma spread_step {A} a b F B (k : loc -> HM A) h :
  holds_tasks h a F -> holds_tasks h b B ->
  exists c,
    (all <~ Array_spread_h a b ;; k all) h = k (List.length h) (h ++ [c])%list /\
    holds_tasks (h ++ [c])%list (List.length h) (F ++ B)%list.
Proof.
  intros (ra & Ha & Hra) (rb & Hb & Hrb).
  exists (CArray (ra ++ rb)%list). split.
  - unfold hbind at 1, Array_spread_h, hbind at 1, read_array. rewrite Ha.
    unfold hbind at 1. rewrite Hb. reflexivity.
  - exists (ra ++ rb)%list. split.
    + rewrite nth_error_app2, Nat.sub_diag by lia. reflexivity.
    + apply Forall2_app.
      * revert Hra. apply Forall2_impl. intros r t. apply lookup_app.
      * revert Hrb. apply Forall2_impl. intros r t. apply lookup_app.
Qed.

Ltac grow h c Hc Hf Hb :=
  apply (constants_loaded_app h [c]) in Hc;
  apply (holds_tasks_app h [c]) in Hf;
  apply (holds_tasks_app h [c]) in Hb.

Ltac count_next Hreads Ht Hc Hf Hb :=
  match goal with
  | |- context [hbind (Array_filter_h _ ?a)
                  (fun a1 => hbind (Array_length_h a1) ?k) ?h] =>
      let c := fresh "c" in
      let E := fresh "E" in
      destruct (count_step _ _ a _ k h Hreads Hc Ht) as [c E];
      rewrite E; clear E; cbv beta; grow h c Hc Hf Hb
  end.

(** One call: the snapshot is that of the tasks behind the references, and
    the store only grows. *)
Lemma computeStats_h_spec h f b F B sinceMs :
  constants_loaded h -> holds_tasks h f F -> holds_tasks h b B ->
  exists fresh,
    computeStats_h f b sinceMs h
    = Some (computeStats F B sinceMs, (h ++ fresh)%list).
Proof.
  intros Hc Hf Hb. unfold computeStats_h.
  count_next (reads_closedInRange sinceMs) Hf Hc Hf Hb.
  count_next reads_isInProgress Hf Hc Hf Hb.
  match goal with
  | |- context [hbind (Array_spread_h f b) ?k ?h1] =>
      destruct (spread_step f b F B k h1 Hf Hb) as (c1 & E & Hall);
      rewrite E; clear E; cbv beta; grow h1 c1 Hc Hf Hb
  end.
  match goal with
  | |- context [hbind (Array_filter_h _ ?a)
                  (fun a1 => hbind (Array_length_h a1) ?k) ?h1] =>
      destruct (count_step _ _ a _ k h1 (reads_closedInRange sinceMs) Hc Hall)
        as [c2 E];
      rewrite E; clear E; cbv beta; grow h1 c2 Hc Hf Hb
  end.
  count_next reads_notDone Hb Hc Hf Hb.
  count_next (reads_createdInRange sinceMs) Hb Hc Hf Hb.
  count_next (reads_closedInRange sinceMs) Hb Hc Hf Hb.
  count_next reads_isDeferred Hb Hc Hf Hb.
  count_next (reads_closedInRange sinceMs) Hb Hc Hf Hb.
  unfold hret. rewrite <- !app_assoc. eexists. reflexivity.
Qed.

(** The calls in a row: every call sees the collections as the first did. *)
Lemma windows_h_spec f b F B cutoffs : forall h,
  constants_loaded h -> holds_tasks h f F -> holds_tasks h b B ->
  exists fresh,
    windows_h f b cutoffs h
    = Some (map (computeStats F B) cutoffs, (h ++ fresh)%list).
Proof.
  induction cutoffs as [|s rest IH]; intros h Hc Hf Hb; cbn [windows_h map].
  - exists []. unfold hret. now rewrite app_nil_r.
  - destruct (computeStats_h_spec h f b F B s Hc Hf Hb) as [k1 E1].
    unfold hbind at 1. rewrite E1.
    destruct (IH (h ++ k1)%list (constants_loaded_app _ _ Hc)
                 (holds_tasks_app _ _ _ _ Hf) (holds_tasks_app _ _ _ _ Hb))
      as [k2 E2].
    unfold hbind at 1. rewrite E2. unfold hret.
    exists (k1 ++ k2)%list. now rewrite app_assoc.
Qed.

(** C9.  [computeStats] on a store: the collections are shared arrays of
    shared task objects and the status lists are arrays of the module.  A
    call returns the snapshot of the tasks behind its two references at its
    cutoff, whatever else the store holds and wherever the collections lie,
    so two calls on equal collections and cutoffs return equal snapshots.
    It writes to no object that existed: the store afterwards is the store
    before followed by new arrays.  So the calls [main] makes one after the
    other for its windows each return what the call alone returns, and these
    are the snapshots [main] puts in [ranges]. *)
Theorem C9_computeStats_pure (h h' : Heap) (featureTasks bugTasks : loc)
    (featureTasks' bugTasks' : loc) (F B : list Task.t) (sinceMs : Z)
    (I : Inputs) (st : State) :
  constants_loaded h -> holds_tasks h featureTasks F -> holds_tasks h bugTasks B ->
  constants_loaded h' -> holds_tasks h' featureTasks' F -> holds_tasks h' bugTasks' B ->
  let cutoffs := window_cutoffs I (clock_reads st) in
  (exists fresh fresh',
     computeStats_h featureTasks bugTasks sinceMs h
     = Some (computeStats F B sinceMs, (h ++ fresh)%list) /\
     computeStats_h featureTasks' bugTasks' sinceMs h'
     = Some (computeStats F B sinceMs, (h' ++ fresh')%list)) /\
  (exists fresh,
     windows_h featureTasks bugTasks cutoffs h
     = Some (map (computeStats F B) cutoffs, (h ++ fresh)%list)) /\
  fst (compute_ranges I F B st)
  = Ok (combine window_names (map (computeStats F B) cutoffs)).
Proof.
  intros Hc Hf Hb Hc' Hf' Hb'. cbv zeta. split; [|split].
  - destruct (computeStats_h_spec h featureTasks bugTasks F B sinceMs Hc Hf Hb)
      as [k E].
    destruct (computeStats_h_spec h' featureTasks' bugTasks' F B sinceMs Hc' Hf' Hb')
      as [k' E'].
    exists k, k'. split; assumption.
  - now apply windows_h_spec.
  - now rewrite compute_ranges_eq.
Qed.

(** C9 on a store with two tasks, the collections once at locations 4 and 5
    and once, after another object, at 5 and 6. *)
Lemma C9_computeStats_pure_witness :
  let t1 := done_at 1699999000000 in
  let t2 := labelled (JNull, JNull, JNull) "new" JNull in
  let h := (module_heap ++ [CTask t1; CTask t2; CArray [2%nat]; CArray [3%nat]])%list in
  let h' := (module_heap
               ++ [CTask t1; CTask t2; CStrings []; CArray [2%nat]; CArray [3%nat]])%list in
  exists fresh fresh',
    computeStats_h 4%nat 5%nat 1699400000000 h
    = Some (computeStats [t1] [t2] 1699400000000, (h ++ fresh)%list) /\
    computeStats_h 5%nat 6%nat 1699400000000 h'
    = Some (computeStats [t1] [t2] 1699400000000, (h' ++ fresh')%list).
Proof.
  cbv zeta.
  apply (C9_computeStats_pure
           (module_heap ++ [CTask (done_at 1699999000000);
                            CTask (labelled (JNull, JNull, JNull) "new" JNull);
                            CArray [2%nat]; CArray [3%nat]])%list
           (module_heap ++ [CTask (done_at 1699999000000);
                            CTask (labelled (JNull, JNull, JNull) "new" JNull);
                            CStrings []; CArray [2%nat]; CArray [3%nat]])%list
           4%nat 5%nat 5%nat 6%nat
           [done_at 1699999000000] [labelled (JNull, JNull, JNull) "new" JNull]
           1699400000000 (example_inputs (Json None)) initial).
  - split; reflexivity.
  - eexists. split; [reflexivity|]. repeat constructor.
  - eexists. split; [reflexivity|]. repeat constructor.
  - split; reflexivity.
  - eexists. split; [reflexivity|]. repeat constructor.
  - eexists. split; [reflexivity|]. repeat constructor.
Defined.

Lemma not_done_without_label t : status_label t = None -> isDone t = false.
Proof. unfold isDone, status_lower. now intros ->. Qed.

Lemma closedInRange_absent sinceMs t :
  closure_absent sinceMs t -> closedInRange sinceMs t = false.
Proof.
  unfold closure_absent, closedInRange. intros [->|[-> H]]; cbn [Number num_ge].
  - apply andb_false_r.
  - replace (sinceMs <=? 0) with false by (symmetry; apply Z.leb_gt; lia).
    apply andb_false_r.
Qed.

(** C10, amended.  A task without a status label is neither done nor in
    progress, and in the bug collection it counts as an open bug.  A task
    whose closure field is missing is never in range; one whose closure field
    is [null] is not in range for a cutoff after the epoch; such a task adds
    nothing to [featuresShipped], [tasksClosed] or [bugsResolved]. *)
Theorem C10_absent_fields (t : Task.t) (sinceMs : Z)
    (featureTasks bugTasks before after : list Task.t) :
  (status_label t = None ->
   isDone t = false /\ isInProgress t = false /\
   Stats.openBugs (Snapshot.stats
     (computeStats featureTasks (before ++ t :: after) sinceMs))
   = Stats.openBugs (Snapshot.stats
       (computeStats featureTasks (before ++ after) sinceMs)) + 1) /\
  (closure_absent sinceMs t ->
   closedInRange sinceMs t = false /\
   Stats.featuresShipped (Snapshot.stats
     (computeStats (before ++ t :: after) bugTasks sinceMs))
   = Stats.featuresShipped (Snapshot.stats
       (computeStats (before ++ after) bugTasks sinceMs)) /\
   Stats.tasksClosed (Snapshot.stats
     (computeStats (before ++ t :: after) bugTasks sinceMs))
   = Stats.tasksClosed (Snapshot.stats
       (computeStats (before ++ after) bugTasks sinceMs)) /\
   Stats.tasksClosed (Snapshot.stats
     (computeStats featureTasks (before ++ t :: after) sinceMs))
   = Stats.tasksClosed (Snapshot.stats
       (computeStats featureTasks (before ++ after) sinceMs)) /\
   BugStats.resolved (Snapshot.bugs
     (computeStats featureTasks (before ++ t :: after) sinceMs))
   = BugStats.resolved (Snapshot.bugs
       (computeStats featureTasks (before ++ after) sinceMs))).
Proof.
  split.
  - intros H. pose proof (not_done_without_label t H) as Hd.
    split; [exact Hd|]. split.
    + unfold isInProgress, status_lower. now rewrite H.
    + unfold computeStats. cbn [Snapshot.stats Stats.openBugs].
      rewrite Array_length_filter_insert. now rewrite Hd.
  - intros H. pose proof (closedInRange_absent sinceMs t H) as Hc.
    split; [exact Hc|].
    unfold computeStats.
    cbn [Snapshot.stats Snapshot.bugs Stats.featuresShipped Stats.tasksClosed
         BugStats.resolved].
    rewrite <- !app_assoc, <- !app_comm_cons.
    rewrite !(Array_length_filter_insert (closedInRange sinceMs) before), Hc.
    rewrite !(app_assoc featureTasks before).
    rewrite !(Array_length_filter_insert (closedInRange sinceMs) (featureTasks ++ before)), Hc.
    repeat split; lia.
Qed.

(** C10 on a task without status and on a done task closed [null]. *)
Lemma C10_absent_fields_witness :
  let t := Task.mk JUndefined None JUndefined JUndefined JUndefined in
  let u := labelled (JUndefined, JUndefined, JUndefined) "done" JNull in
  (isDone t = false /\ isInProgress t = false /\
   Stats.openBugs (Snapshot.stats (computeStats [] ([] ++ t :: []) 1000))
   = Stats.openBugs (Snapshot.stats (computeStats [] ([] ++ []) 1000)) + 1) /\
  closedInRange 1000 u = false.
Proof.
  cbv zeta. split.
  - apply (C10_absent_fields
             (Task.mk JUndefined None JUndefined JUndefined JUndefined)
             1000 [] [] [] []). reflexivity.
  - apply (C10_absent_fields
             (labelled (JUndefined, JUndefined, JUndefined) "done" JNull)
             1000 [] [] [] []). right. split; [reflexivity|lia].
Defined.

(** C10, as stated, fails: [Number(null)] is 0, so a done task whose closure
    field is [null] is in range for the cutoff 0. *)
Lemma C10_null_closure_in_range :
  ~ absent_closure_never_in_range
      (labelled (JUndefined, JUndefined, JUndefined) "done" JNull) 0.
Proof.
  unfold absent_closure_never_in_range. intros H.
  specialize (H eq_refl (or_intror eq_refl)). discriminate.
Qed.

(** * Further properties *)

(** ** Status labels and the counters *)

Lemma lower_ascii_idempotent c : lower_ascii (lower_ascii c) = lower_ascii c.
Proof. destruct c as [[] [] [] [] [] [] [] []]; reflexivity. Qed.

Lemma toLowerCase_idempotent s : toLowerCase (toLowerCase s) = toLowerCase s.
Proof.
  induction s as [|c s IH]; cbn [toLowerCase]; [reflexivity|].
  now rewrite lower_ascii_idempotent, IH.
Qed.

Lemma status_lower_relabel f t :
  (forall s, toLowerCase (f s) = toLowerCase s) ->
  status_lower (relabel f t) = status_lower t.
Proof.
  intros Hf. unfold status_lower, status_label, relabel. cbn [Task.status].
  destruct (Task.status t) as [[[l|]]|]; cbn; [now rewrite Hf|reflexivity|reflexivity].
Qed.

Lemma Array_length_filter_map {A B} (g : A -> B) (p : B -> bool) (q : A -> bool) l :
  (forall x, p (g x) = q x) ->
  Array_length (filter p (map g l)) = Array_length (filter q l).
Proof.
  intros H. unfold Array_length. f_equal.
  induction l as [|x l IH]; cbn [map filter]; [reflexivity|].
  rewrite H. destruct (q x); cbn [List.length]; now rewrite IH.
Qed.

(** X1.  The status lists are matched on the lower-cased label, so
    [computeStats] does not see the case of a label: rewriting every label
    by a function that keeps its lower-cased form leaves the snapshot as it
    is. *)
Theorem X_case_insensitive (f : string -> string)
    (featureTasks bugTasks : list Task.t) (sinceMs : Z) :
  (forall s, toLowerCase (f s) = toLowerCase s) ->
  computeStats (map (relabel f) featureTasks) (map (relabel f) bugTasks) sinceMs
  = computeStats featureTasks bugTasks sinceMs.
Proof.
  intros Hf.
  assert (Hd : forall t, isDone (relabel f t) = isDone t)
    by (intros t; unfold isDone; now rewrite status_lower_relabel).
  assert (Hp : forall t, isInProgress (relabel f t) = isInProgress t)
    by (intros t; unfold isInProgress; now rewrite status_lower_relabel).
  assert (Hc : forall t, closedInRange sinceMs (relabel f t) = closedInRange sinceMs t)
    by (intros t; unfold closedInRange; now rewrite Hd).
  assert (Hn : forall t, negb (isDone (relabel f t)) = negb (isDone t))
    by (intros t; now rewrite Hd).
  assert (Hr : forall t, createdInRange sinceMs (relabel f t) = createdInRange sinceMs t)
    by reflexivity.
  assert (He : forall t, isDeferred (relabel f t) = isDeferred t)
    by (intros t; unfold isDeferred; now rewrite status_lower_relabel).
  unfold computeStats. rewrite <- map_app.
  rewrite !(Array_length_filter_map (relabel f) _ _ _ Hc),
          (Array_length_filter_map (relabel f) _ _ _ Hp),
          (Array_length_filter_map (relabel f) _ _ _ Hn),
          (Array_length_filter_map (relabel f) _ _ _ Hr),
          (Array_length_filter_map (relabel f) _ _ _ He).
  reflexivity.
Qed.

(** X1 on a label in capitals. *)
Lemma X_case_insensitive_witness :
  computeStats (map (relabel toLowerCase) [labelled (JNull, JNull, JNull) "DONE" (JString "5")])
               (map (relabel toLowerCase) []) 3
  = computeStats [labelled (JNull, JNull, JNull) "DONE" (JString "5")] [] 3.
Proof.
  apply (X_case_insensitive toLowerCase). exact toLowerCase_idempotent.
Defined.

Lemma Array_length_filter_impl {A} (p q : A -> bool) l :
  (forall x, p x = true -> q x = true) ->
  Array_length (filter p l) <= Array_length (filter q l).
Proof.
  intros H. unfold Array_length. apply inj_le.
  induction l as [|x l IH]; cbn [filter]; [lia|].
  destruct (p x) eqn:Ep.
  - rewrite (H x Ep). cbn [List.length]. lia.
  - destruct (q x); cbn [List.length]; lia.
Qed.

Lemma Array_length_filter_disjoint {A} (p q : A -> bool) l :
  (forall x, p x = true -> q x = false) ->
  Array_length (filter p l) + Array_length (filter q l) <= Array_length l.
Proof.
  intros H. unfold Array_length. rewrite <- Nat2Z.inj_add. apply inj_le.
  induction l as [|x l IH]; cbn [filter]; [cbn; lia|].
  destruct (p x) eqn:Ep.
  - rewrite (H x Ep). cbn [List.length]. lia.
  - destruct (q x); cbn [List.length]; lia.
Qed.

Lemma done_label_cases s :
  existsb (String.eqb s) DONE_STATUSES = true ->
  s = "complete" \/ s = "done" \/ s = "closed" \/ s = "shipped".
Proof.
  cbn [existsb DONE_STATUSES]. rewrite !orb_true_iff, !String.eqb_eq.
  intuition discriminate.
Qed.

(** No status is both done and in progress, or both done and deferred. *)
Lemma isDone_exclusive t :
  isDone t = true -> isInProgress t = false /\ isDeferred t = false.
Proof.
  unfold isDone, isInProgress, isDeferred, Array_includes.
  destruct (status_lower t) as [s|]; [|discriminate].
  intros H. apply done_label_cases in H as [-> | [-> | [-> | ->]]]; split; reflexivity.
Qed.

(** X2.  How the counters of one snapshot relate: [tasksClosed] is
    [featuresShipped] plus the resolved bugs; a feature is not both shipped
    and in progress, and a bug not both resolved and open, so these pairs
    stay within their collections; a deferred bug is an open bug. *)
Theorem X_counter_relations (featureTasks bugTasks : list Task.t) (sinceMs : Z) :
  let s := computeStats featureTasks bugTasks sinceMs in
  Stats.tasksClosed (Snapshot.stats s)
  = Stats.featuresShipped (Snapshot.stats s) + BugStats.resolved (Snapshot.bugs s) /\
  Stats.featuresShipped (Snapshot.stats s) + Stats.inProgress (Snapshot.stats s)
  <= Array_length featureTasks /\
  BugStats.resolved (Snapshot.bugs s) + BugStats.open (Snapshot.bugs s)
  <= Array_length bugTasks /\
  BugStats.deferred (Snapshot.bugs s) <= BugStats.open (Snapshot.bugs s).
Proof.
  cbv zeta. unfold computeStats.
  cbn [Snapshot.stats Snapshot.bugs Stats.tasksClosed Stats.featuresShipped
       Stats.inProgress BugStats.resolved BugStats.open BugStats.deferred].
  repeat split.
  - now rewrite filter_app, Array_length_app.
  - apply Array_length_filter_disjoint. intros t H.
    unfold closedInRange in H. apply andb_true_iff in H as [H _].
    now apply isDone_exclusive.
  - apply Array_length_filter_disjoint. intros t H.
    unfold closedInRange in H. apply andb_true_iff in H as [H _]. now rewrite H.
  - apply Array_length_filter_impl. intros t H.
    destruct (isDone t) eqn:E; [|reflexivity].
    apply isDone_exclusive in E as [_ E]. congruence.
Qed.

Lemma closedInRange_earlier s1 s2 t :
  s1 <= s2 -> closedInRange s2 t = true -> closedInRange s1 t = true.
Proof.
  unfold closedInRange, num_ge. intros Hs H.
  apply andb_true_iff in H as [-> H]. cbn [andb].
  destruct (Number (Task.date_closed t)); [discriminate|].
  apply Z.leb_le in H. apply Z.leb_le. lia.
Qed.

Lemma createdInRange_earlier s1 s2 t :
  s1 <= s2 -> createdInRange s2 t = true -> createdInRange s1 t = true.
Proof.
  unfold createdInRange, num_ge. intros Hs H.
  destruct (Number (Task.date_created t)); [discriminate|].
  apply Z.leb_le in H. apply Z.leb_le. lia.
Qed.

(** X3.  An earlier cutoff widens the window: the counters that look at a
    date do not shrink, and [inProgress], the open and the deferred bugs do
    not depend on the cutoff at all. *)
Theorem X_wider_window (featureTasks bugTasks : list Task.t) (s1 s2 : Z) :
  s1 <= s2 ->
  let a := computeStats featureTasks bugTasks s1 in
  let b := computeStats featureTasks bugTasks s2 in
  Stats.featuresShipped (Snapshot.stats b) <= Stats.featuresShipped (Snapshot.stats a) /\
  Stats.tasksClosed (Snapshot.stats b) <= Stats.tasksClosed (Snapshot.stats a) /\
  BugStats.resolved (Snapshot.bugs b) <= BugStats.resolved (Snapshot.bugs a) /\
  BugStats.newThisWeek (Snapshot.bugs b) <= BugStats.newThisWeek (Snapshot.bugs a) /\
  Stats.inProgress (Snapshot.stats b) = Stats.inProgress (Snapshot.stats a) /\
  Stats.openBugs (Snapshot.stats b) = Stats.openBugs (Snapshot.stats a) /\
  BugStats.open (Snapshot.bugs b) = BugStats.open (Snapshot.bugs a) /\
  BugStats.deferred (Snapshot.bugs b) = BugStats.deferred (Snapshot.bugs a).
Proof.
  intros Hs. cbv zeta. unfold computeStats.
  cbn [Snapshot.stats Snapshot.bugs Stats.tasksClosed Stats.featuresShipped
       Stats.inProgress Stats.openBugs BugStats.resolved BugStats.open
       BugStats.deferred BugStats.newThisWeek].
  repeat split;
    try (apply Array_length_filter_impl; intros t;
         first [apply closedInRange_earlier | apply createdInRange_earlier];
         exact Hs).
Qed.

(** X3 on a task closed between the two cutoffs. *)
Lemma X_wider_window_witness :
  let a := computeStats [done_at 50] [done_at 150] 0 in
  let b := computeStats [done_at 50] [done_at 150] 100 in
  Stats.featuresShipped (Snapshot.stats b) <= Stats.featuresShipped (Snapshot.stats a) /\
  Stats.tasksClosed (Snapshot.stats b) <= Stats.tasksClosed (Snapshot.stats a) /\
  BugStats.resolved (Snapshot.bugs b) <= BugStats.resolved (Snapshot.bugs a) /\
  BugStats.newThisWeek (Snapshot.bugs b) <= BugStats.newThisWeek (Snapshot.bugs a) /\
  Stats.inProgress (Snapshot.stats b) = Stats.inProgress (Snapshot.stats a) /\
  Stats.openBugs (Snapshot.stats b) = Stats.openBugs (Snapshot.stats a) /\
  BugStats.open (Snapshot.bugs b) = BugStats.open (Snapshot.bugs a) /\
  BugStats.deferred (Snapshot.bugs b) = BugStats.deferred (Snapshot.bugs a).
Proof.
  apply (X_wider_window [done_at 50] [done_at 150] 0 100). lia.
Defined.

(** ** The pass rate on exact halves *)

(** X4 on one feature and two bugs closed: a third, 33. *)
Lemma qaPassRate_away_from_ties_witness :
  Stats.qaPassRate (Snapshot.stats (computeStats [done_at 5] [done_at 5; done_at 5] 3))
  = spec_qaPassRate 1 2.
Proof.
  apply (qaPassRate_away_from_ties [done_at 5] [done_at 5; done_at 5] 3).
  - vm_compute. reflexivity.
  - vm_compute. discriminate.
Defined.

(** [Math.round(d * 100)] when [d * 100] lies between two half-integers. *)
Lemma round_percent_within m e Lm Um nl nu :
  e <= -53 -> 1 <= nl <= nu -> nu <= 100 ->
  Lm * 2 ^ (-53 - e) <= Z.pos m <= Um * 2 ^ (-53 - e) ->
  (2 * nl - 1) * 2 ^ 53 <= 200 * Lm ->
  200 * Um <= (2 * nu + 1) * 2 ^ 53 - 2 ^ 8 ->
  exists k, nl <= k <= nu /\
    Math_round (js_mul (S754_finite false m e) (js_of_Z 100)) = js_of_Z k.
Proof.
  intros He Hn Hn' Hm HL HU. rewrite js_of_Z_100.
  unfold js_mul, SFmul. cbn [xorb].
  assert (P : 0 < 2 ^ (-53 - e)) by (apply Z.pow_pos_nonneg; lia).
  assert (Pe : 2 ^ (- e) = 2 ^ 53 * 2 ^ (-53 - e)).
  { rewrite <- Z.pow_add_r by lia. f_equal. lia. }
  destruct (binary_round_aux_between (Z.pos (m * 7036874417766400)) (e + -46)
              loc_Exact ((2 * nl - 1) * 2 ^ 45) ((2 * nu + 1) * 2 ^ 45 - 1) (-46))
    as (mp & ep & E & Hep & Hmp); try lia.
  - assert (Zdigits2 ((2 * nu + 1) * 2 ^ 45 - 1) <= 53) by (apply Zdigits2_le; lia).
    unfold fexp, emin, prec, emax. lia.
  - unfold prec, emax. lia.
  - replace (-46 - (e + -46)) with (- e) by lia.
    rewrite Pos2Z.inj_mul, Pe.
    change (Z.pos 7036874417766400) with (100 * 2 ^ 46). nia.
  - unfold loc_up. rewrite Z.add_0_r.
    replace (-46 - (e + -46)) with (- e) by lia.
    rewrite Pos2Z.inj_mul, Pe.
    change (Z.pos 7036874417766400) with (100 * 2 ^ 46). nia.
  - rewrite E.
    assert (Hep' : ep <= -46).
    { assert (Zdigits2 ((2 * nu + 1) * 2 ^ 45 - 1) <= 53) by (apply Zdigits2_le; lia).
      revert Hep. unfold fexp, emin, prec, emax. lia. }
    unfold Math_round.
    replace (0 <=? ep) with false by (symmetry; apply Z.leb_gt; lia).
    assert (G : 0 < 2 ^ (-46 - ep)) by (apply Z.pow_pos_nonneg; lia).
    assert (G1 : 2 ^ (- ep) = 2 ^ 46 * 2 ^ (-46 - ep)).
    { rewrite <- Z.pow_add_r by lia. f_equal. lia. }
    assert (G2 : 2 ^ (- ep - 1) = 2 ^ 45 * 2 ^ (-46 - ep)).
    { rewrite <- Z.pow_add_r by lia. f_equal. lia. }
    set (k := (Z.pos mp + 2 ^ (- ep - 1)) / 2 ^ (- ep)).
    assert (Hk1 : nl <= k).
    { apply Z.div_le_lower_bound; [lia|]. rewrite G1, G2. nia. }
    assert (Hk2 : k < nu + 1).
    { apply Z.div_lt_upper_bound; [lia|]. rewrite G1, G2. nia. }
    exists k. split; [lia|].
    replace (k =? 0) with false by (symmetry; apply Z.eqb_neq; lia).
    reflexivity.
Qed.

(** [Math.round(d * 100)] when [d * 100] lies below a half-integer. *)
Lemma round_percent_at_most m e Um nu :
  e <= -53 -> 0 <= nu <= 100 ->
  Z.pos m <= Um * 2 ^ (-53 - e) ->
  0 < Um -> 200 * Um <= (2 * nu + 1) * 2 ^ 53 - 2 ^ 8 ->
  exists k, 0 <= k <= nu /\
    Math_round (js_mul (S754_finite false m e) (js_of_Z 100)) = js_of_Z k.
Proof.
  intros He Hn Hm HU0 HU. rewrite js_of_Z_100.
  unfold js_mul, SFmul. cbn [xorb].
  assert (P : 0 < 2 ^ (-53 - e)) by (apply Z.pow_pos_nonneg; lia).
  assert (Pe : 2 ^ (- e) = 2 ^ 53 * 2 ^ (-53 - e)).
  { rewrite <- Z.pow_add_r by lia. f_equal. lia. }
  pose proof (binary_round_aux_le (Z.pos (m * 7036874417766400)) (e + -46)
                loc_Exact ((2 * nu + 1) * 2 ^ 45 - 1) (-46)) as R.
  unfold loc_up in R. rewrite Z.add_0_r in R.
  assert (D : Zdigits2 ((2 * nu + 1) * 2 ^ 45 - 1) <= 53) by (apply Zdigits2_le; lia).
  assert (Hb : Z.pos (m * 7036874417766400)
               <= ((2 * nu + 1) * 2 ^ 45 - 1) * 2 ^ (-46 - (e + -46))).
  { replace (-46 - (e + -46)) with (- e) by lia.
    rewrite Pos2Z.inj_mul, Pe.
    change (Z.pos 7036874417766400) with (100 * 2 ^ 46). nia. }
  specialize (R ltac:(lia) ltac:(lia) ltac:(lia)
                ltac:(revert D; unfold fexp, emin, prec, emax; lia)
                ltac:(unfold prec, emax; lia) Hb).
  destruct (binary_round_aux prec emax false (Z.pos (m * 7036874417766400)) (e + -46) loc_Exact)
    as [[]|[]| |[] mp ep]; try contradiction.
  - exists 0. split; [lia|reflexivity].
  - destruct R as [R1 R2].
    assert (Hep : ep <= -46) by (revert R1 D; unfold fexp, emin, prec, emax; lia).
    unfold Math_round.
    replace (0 <=? ep) with false by (symmetry; apply Z.leb_gt; lia).
    assert (G : 0 < 2 ^ (-46 - ep)) by (apply Z.pow_pos_nonneg; lia).
    assert (G1 : 2 ^ (- ep) = 2 ^ 46 * 2 ^ (-46 - ep)).
    { rewrite <- Z.pow_add_r by lia. f_equal. lia. }
    assert (G2 : 2 ^ (- ep - 1) = 2 ^ 45 * 2 ^ (-46 - ep)).
    { rewrite <- Z.pow_add_r by lia. f_equal. lia. }
    set (k := (Z.pos mp + 2 ^ (- ep - 1)) / 2 ^ (- ep)).
    assert (Hk1 : 0 <= k) by (apply Z.div_pos; lia).
    assert (Hk2 : k < nu + 1).
    { apply Z.div_lt_upper_bound; [lia|]. rewrite G1, G2. nia. }
    exists k. split; [lia|].
    destruct (k =? 0) eqn:Ek; [|reflexivity].
    apply Z.eqb_eq in Ek. rewrite Ek. reflexivity.
Qed.

(** On an exact half the pass rate is the percentage rounded half up, or one
    below it. *)
Lemma pass_rate_at_ties a b :
  0 <= a <= b -> 0 < b < 2 ^ 32 ->
  (200 * a + b) mod (2 * b) = 0 ->
  pass_rate a b = js_of_Z (round_half_up_percent a b) \/
  pass_rate a b = js_of_Z (round_half_up_percent a b - 1).
Proof.
  intros [Ha Hab] Hb Htie. unfold round_half_up_percent.
  set (n := (200 * a + b) / (2 * b)).
  pose proof (Z.div_mod (200 * a + b) (2 * b) ltac:(lia)) as DM. fold n in DM.
  rewrite Htie, Z.add_0_r in DM.
  assert (Hn0 : 1 <= n) by nia.
  assert (Hn1 : n <= 100) by nia.
  assert (Hab' : 0 < a < b) by nia.
  assert (B53 : 2 ^ 32 < 2 ^ 53) by (apply Z.pow_lt_mono_r; lia).
  unfold pass_rate.
  destruct (js_of_Z_pos a ltac:(lia)) as (ma & ea & Ea & Hea & Va).
  destruct (js_of_Z_pos b ltac:(lia)) as (mb & eb & Eb & Heb & Vb).
  rewrite Ea, Eb.
  set (j := (a * 2 ^ 53) / b).
  pose proof (Z.div_mod (a * 2 ^ 53) b ltac:(lia)) as DJ. fold j in DJ.
  pose proof (Z.mod_pos_bound (a * 2 ^ 53) b ltac:(lia)) as MJ.
  assert (Hj0 : 0 < j) by nia.
  assert (Hj1 : j + 1 < 2 ^ 53) by nia.
  assert (Pa : 0 < 2 ^ (- ea)) by (apply Z.pow_pos_nonneg; lia).
  assert (Pb : 0 < 2 ^ (- eb)) by (apply Z.pow_pos_nonneg; lia).
  assert (Ps : 2 ^ (53 + ea - eb) * 2 ^ (- ea) = 2 ^ 53 * 2 ^ (- eb)).
  { rewrite <- !Z.pow_add_r by lia. f_equal. lia. }
  destruct (js_div_between ma ea mb eb j (j + 1) Hea Heb Hj0 ltac:(lia))
    as (md & ed & Ed & Hed & Hmd).
  - rewrite Va, Vb.
    replace (a * 2 ^ (- ea) * 2 ^ (53 + ea - eb))
      with (a * (2 ^ (53 + ea - eb) * 2 ^ (- ea))) by ring.
    rewrite Ps. nia.
  - rewrite Va, Vb.
    replace (a * 2 ^ (- ea) * 2 ^ (53 + ea - eb))
      with (a * (2 ^ (53 + ea - eb) * 2 ^ (- ea))) by ring.
    rewrite Ps. nia.
  - rewrite Ed.
    assert (HU : 200 * (j + 1) <= (2 * n + 1) * 2 ^ 53 - 2 ^ 8) by nia.
    destruct (Z.eq_dec n 1) as [E1|Hn].
    + destruct (round_percent_at_most md ed (j + 1) n) as (k & Hk & ->); try lia.
      assert (k = n \/ k = n - 1) as [->| ->] by lia; auto.
    + assert (HL : (2 * (n - 1) - 1) * 2 ^ 53 <= 200 * j).
      { apply (Z.mul_le_mono_pos_l _ _ b); [lia|].
        assert (E1 : 200 * (a * 2 ^ 53) = b * ((2 * n - 1) * 2 ^ 53)).
        { replace (200 * (a * 2 ^ 53)) with ((200 * a) * 2 ^ 53) by ring.
          replace (200 * a) with (b * (2 * n - 1)) by lia. ring. }
        rewrite DJ in E1 at 1.
        change (2 ^ 53) with 9007199254740992 in *. lia. }
      destruct (round_percent_within md ed j (j + 1) (n - 1) n Hed
                  ltac:(lia) ltac:(lia) Hmd HL HU) as (k & Hk & ->).
      assert (k = n \/ k = n - 1) as [->| ->] by lia; auto.
Qed.

(** X5.  How far the pass rate of [computeStats] can be from the percentage
    rounded half up: it is that percentage, or, only when the exact
    percentage falls on a half, one below it. *)
Theorem X_qaPassRate_at_most_one_below (featureTasks bugTasks : list Task.t)
    (sinceMs : Z) :
  array_sized (featureTasks ++ bugTasks) ->
  let s := computeStats featureTasks bugTasks sinceMs in
  let featuresShipped := Stats.featuresShipped (Snapshot.stats s) in
  let bugsClosedInRange := BugStats.resolved (Snapshot.bugs s) in
  let totalShipped := featuresShipped + bugsClosedInRange in
  Stats.qaPassRate (Snapshot.stats s)
  = spec_qaPassRate featuresShipped bugsClosedInRange \/
  (0 < totalShipped /\
   (200 * featuresShipped + totalShipped) mod (2 * totalShipped) = 0 /\
   Stats.qaPassRate (Snapshot.stats s)
   = js_of_Z (round_half_up_percent featuresShipped totalShipped - 1)).
Proof.
  intros H. cbv zeta.
  destruct (closed_counts_sized _ _ sinceMs H) as (Hf & Hb & Hs).
  pose proof (Array_length_filter_le (closedInRange sinceMs) featureTasks).
  pose proof (Array_length_filter_le (closedInRange sinceMs) bugTasks).
  unfold array_sized in H. rewrite Array_length_app in H.
  unfold computeStats, spec_qaPassRate.
  cbn [Snapshot.stats Snapshot.bugs Stats.qaPassRate Stats.featuresShipped BugStats.resolved].
  set (a := Array_length (filter (closedInRange sinceMs) featureTasks)) in *.
  set (c := Array_length (filter (closedInRange sinceMs) bugTasks)) in *.
  destruct (0 <? a + c) eqn:E; [|now left].
  apply Z.ltb_lt in E. fold (pass_rate a (a + c)).
  destruct (Z.eq_dec ((200 * a + (a + c)) mod (2 * (a + c))) 0) as [Htie|Htie].
  - destruct (pass_rate_at_ties a (a + c)) as [R|R]; try lia; [now left|].
    right. repeat split; assumption.
  - left. apply pass_rate_away_from_ties; [lia|lia|exact Htie].
Qed.

(** X5 on 23 features and 17 bugs closed: 57, one below 58. *)
Lemma X_qaPassRate_at_most_one_below_witness :
  let s := computeStats (repeat (done_at 5) 23) (repeat (done_at 5) 17) 3 in
  Stats.qaPassRate (Snapshot.stats s)
  = spec_qaPassRate (Stats.featuresShipped (Snapshot.stats s))
      (BugStats.resolved (Snapshot.bugs s)) \/
  (0 < Stats.featuresShipped (Snapshot.stats s) + BugStats.resolved (Snapshot.bugs s) /\
   (200 * Stats.featuresShipped (Snapshot.stats s)
    + (Stats.featuresShipped (Snapshot.stats s) + BugStats.resolved (Snapshot.bugs s)))
   mod (2 * (Stats.featuresShipped (Snapshot.stats s)
             + BugStats.resolved (Snapshot.bugs s))) = 0 /\
   Stats.qaPassRate (Snapshot.stats s)
   = js_of_Z (round_half_up_percent (Stats.featuresShipped (Snapshot.stats s))
                (Stats.featuresShipped (Snapshot.stats s)
                 + BugStats.resolved (Snapshot.bugs s)) - 1)).
Proof.
  cbv zeta.
  apply (X_qaPassRate_at_most_one_below (repeat (done_at 5) 23) (repeat (done_at 5) 17) 3).
  vm_compute. reflexivity.
Defined.

(** ** The stages of a run *)

Lemma getListTasks_state I listId st :
  clock_reads (snd (getListTasks I listId [] st)) = clock_reads st /\
  requests (snd (getListTasks I listId [] st))
  = (requests st ++ list_request I listId)%list /\
  console (snd (getListTasks I listId [] st)) = console st /\
  data_json (snd (getListTasks I listId [] st)) = data_json st /\
  exit_code (snd (getListTasks I listId [] st)) = exit_code st.
Proof.
  unfold getListTasks, list_request.
  destruct (is_set listId); cbn [negb].
  - unfold clickup, bind, fetch. cbn [obj_spread fold_left].
    destruct (upstream I _) as [e|s b|e|tasks]; cbn; repeat split.
  - cbn. rewrite app_nil_r. repeat split.
Qed.

Lemma fetch_all_state I st :
  clock_reads (snd (fetch_all I st)) = clock_reads st /\
  requests (snd (fetch_all I st))
  = (requests st ++ list_request I (FEATURES_LIST I)
       ++ list_request I (BUGS_LIST I))%list /\
  console (snd (fetch_all I st)) = console st /\
  data_json (snd (fetch_all I st)) = data_json st /\
  exit_code (snd (fetch_all I st)) = exit_code st.
Proof.
  unfold fetch_all, Promise_all2.
  pose proof (getListTasks_state I (FEATURES_LIST I) st) as H1.
  destruct (getListTasks I (FEATURES_LIST I) [] st) as [r1 st1].
  pose proof (getListTasks_state I (BUGS_LIST I) st1) as H2.
  destruct (getListTasks I (BUGS_LIST I) [] st1) as [r2 st2].
  cbn [snd] in *.
  destruct H1 as (A1 & A2 & A3 & A4 & A5), H2 as (B1 & B2 & B3 & B4 & B5).
  assert (snd (match r1, r2 with
               | Ok a, Ok b => (Ok (a, b), st2)
               | Throw e, Ok _ => (Throw e, st2)
               | Ok _, Throw e => (Throw e, st2)
               | Throw e1, Throw e2 =>
                   (Throw (if features_reject_first I then e1 else e2), st2)
               end) = st2) as -> by (destruct r1, r2; reflexivity).
  rewrite B1, B2, B3, B4, B5, A1, A2, A3, A4, A5, app_assoc. repeat split.
Qed.

Lemma forEach_console_log_state {A} (f : A -> string) (l : list A) : forall st,
  forEach (fun x => console_log (f x)) l st
  = (Ok tt, mkState (clock_reads st) (requests st)
                    (console st ++ map (fun x => StdOut (f x)) l)
                    (data_json st) (exit_code st)).
Proof.
  induction l as [|x l IH]; intros st; cbn [forEach map].
  - unfold ret. rewrite app_nil_r. now destruct st.
  - unfold bind. cbn [console_log]. rewrite IH.
    cbn [clock_reads requests console data_json exit_code].
    now rewrite <- app_assoc.
Qed.

(** What [build_data] leaves behind, whether it returns or throws. *)
Lemma build_data_state I F B st :
  requests (snd (build_data I F B st)) = requests st /\
  console (snd (build_data I F B st)) = console st.
Proof.
  unfold build_data, compute_ranges, daysAgo, startOfYear, now_iso, Date_now,
    bind, ret, lift, throw.
  cbn [clock_reads requests console data_json exit_code].
  destruct (recentActivity F B) as [recent|e]; [|split; reflexivity].
  destruct (Date_toISOString _) as [iso|]; [|split; reflexivity].
  cbn [obj_get String.eqb Ascii.eqb Bool.eqb]. split; reflexivity.
Qed.

Lemma build_data_clock I F B st ranges data st' :
  build_data I F B st = (Ok (ranges, data), st') ->
  clock_reads st' = (clock_reads st + 6)%nat /\
  Date_toISOString (IVal (clock I (clock_reads st + 5)%nat))
  = Some (Report.lastUpdated data).
Proof.
  unfold build_data, compute_ranges, daysAgo, startOfYear, now_iso, Date_now,
    bind, ret, lift, throw.
  cbn [clock_reads requests console data_json exit_code].
  destruct (recentActivity F B) as [recent|e]; [|discriminate].
  replace (clock_reads st + 5)%nat with (S (S (S (S (S (clock_reads st)))))) by lia.
  destruct (Date_toISOString _) as [iso|]; [|discriminate].
  cbn [obj_get String.eqb Ascii.eqb Bool.eqb].
  intros [= <- <- <-]. cbn [clock_reads Report.lastUpdated]. split; [lia|reflexivity].
Qed.

(** The script, by the outcome of each stage. *)
Lemma script_stages I st :
  is_set (TOKEN I) = true -> is_set (TEAM_ID I) = true ->
  let failed err s :=
    process_exit 1 (snd (console_error ("❌ Update failed: " ++ message err) s)) in
  script I st =
  match fetch_all I (snd (console_log "🔄 Fetching ClickUp data…" st)) with
  | (Throw err, s1) => failed err s1
  | (Ok (F, B), s1) =>
      let s2 :=
        mkState (clock_reads s1) (requests s1)
          ((console s1
              ++ [StdOut ("   Feature tasks fetched : " ++ Z_to_string (Array_length F))])
             ++ [StdOut ("   Bug tasks fetched     : " ++ Z_to_string (Array_length B))])
          (data_json s1) (exit_code s1) in
      match build_data I F B s2 with
      | (Throw err, s3) => failed err s3
      | (Ok (ranges, data), s3) =>
          match write_error I with
          | Some err =>
              failed err (mkState (clock_reads s3) (requests s3) (console s3)
                                  Damaged (exit_code s3))
          | None =>
              mkState (clock_reads s3) (requests s3)
                ((console s3 ++ [StdOut "✅ data.json updated:"])
                   ++ map (fun entry => StdOut (summary_line entry)) ranges)
                (Written data) (Some 0)
          end
      end
  end.
Proof.
  intros Ht Hi. cbv zeta. unfold script. rewrite Ht, Hi. cbn [negb orb].
  unfold main, fetch_and_aggregate. unfold bind at 1 2. cbn [console_log].
  unfold bind at 1.
  destruct (fetch_all I _) as [[[F B]|e] s1]; [|reflexivity].
  unfold bind at 1. cbn [console_log]. unfold bind at 1. cbn [console_log].
  cbn [clock_reads requests console data_json exit_code].
  destruct (build_data I F B _) as [[[ranges data]|e] s3]; [|reflexivity].
  unfold bind at 1. unfold writeFileSync.
  destruct (write_error I) as [e|]; [reflexivity|].
  unfold bind at 1. cbn [console_log].
  rewrite forEach_console_log_state.
  reflexivity.
Qed.


(** X7.  A run that ends with status 0 has fetched both collections, read
    the clock six times (five cutoffs, then [lastUpdated]), written the
    document and printed nine lines: the start, the two sizes, the
    confirmation and one summary per range, in the order of [ranges]. *)
Theorem X_success_trace (I : Inputs) (st : State) :
  exit_code (script I st) = Some 0 ->
  exists F B data,
    fst (fetch_all I (snd (console_log "🔄 Fetching ClickUp data…" st))) = Ok (F, B) /\
    data_json (script I st) = Written data /\
    console (script I st)
    = (console st ++ success_lines F B (Report.ranges data))%list /\
    clock_reads (script I st) = (clock_reads st + 6)%nat /\
    Date_toISOString (IVal (clock I (clock_reads st + 5)%nat))
    = Some (Report.lastUpdated data).
Proof.
  intros Hexit.
  destruct (is_set (TOKEN I)) eqn:Ht;
    [|unfold script in Hexit; rewrite Ht in Hexit; discriminate].
  destruct (is_set (TEAM_ID I)) eqn:Hi;
    [|unfold script in Hexit; rewrite Ht, Hi in Hexit; discriminate].
  rewrite (script_stages I st Ht Hi) in *. cbv zeta in Hexit |- *.
  set (s0 := snd (console_log "🔄 Fetching ClickUp data…" st)) in *.
  pose proof (fetch_all_state I s0) as (Hc & _ & Hl & _).
  change (clock_reads s0) with (clock_reads st) in Hc.
  change (console s0) with (console st ++ [StdOut "🔄 Fetching ClickUp data…"])%list in Hl.
  destruct (fetch_all I s0) as [[[F B]|e] s1]; [|discriminate].
  cbn [snd] in Hc, Hl.
  match type of Hexit with
  | context [build_data I F B ?s] =>
      pose proof (build_data_state I F B s) as [_ Hb];
      pose proof (build_data_ok I F B s) as Hok;
      pose proof (build_data_clock I F B s) as Hck;
      destruct (build_data I F B s) as [[[ranges data]|e] s3]
  end; [|discriminate].
  destruct (write_error I); [discriminate|].
  specialize (Hok _ _ _ eq_refl) as (_ & Hr & _).
  specialize (Hck _ _ _ eq_refl) as (Hk & Hiso).
  cbn [snd console clock_reads] in Hb, Hk, Hiso.
  exists F, B, data. cbn [fst data_json console clock_reads].
  rewrite Hr, Hb, Hl, Hk, Hc. rewrite Hc in Hiso.
  repeat split; try assumption.
  unfold success_lines. cbn [app]. rewrite <- !app_assoc. reflexivity.
Qed.

(** X8.  Exit status and output file.  A run ends with status 0 or 1; from
    a file not yet touched, status 0 is exactly the case where the document
    was written; a write that failed half-way comes with status 1. *)
Theorem X_exit_zero_iff_written (I : Inputs) (st : State) :
  data_json st = Untouched ->
  (exit_code (script I st) = Some 0 \/ exit_code (script I st) = Some 1) /\
  (exit_code (script I st) = Some 0
   <-> exists data, data_json (script I st) = Written data) /\
  (data_json (script I st) = Damaged
   -> exit_code (script I st) = Some 1 /\ write_error I <> None).
Proof.
  intros Hst.
  destruct (is_set (TOKEN I)) eqn:Ht; [destruct (is_set (TEAM_ID I)) eqn:Hi|].
  - rewrite (script_stages I st Ht Hi). cbv zeta.
    set (s0 := snd (console_log "🔄 Fetching ClickUp data…" st)) in *.
    pose proof (fetch_all_state I s0) as (_ & _ & _ & Hd & _).
    change (data_json s0) with (data_json st) in Hd. rewrite Hst in Hd.
    destruct (fetch_all I s0) as [[[F B]|e] s1]; cbn [snd] in Hd.
    + match goal with
      | |- context [build_data I F B ?s] =>
          pose proof (keeps_file_build_data I F B s) as [Hb _];
          destruct (build_data I F B s) as [[[ranges data]|e] s3]
      end; cbn [snd data_json] in Hb; rewrite Hd in Hb.
      * destruct (write_error I) as [e|] eqn:Ew; cbn.
        -- repeat split; try (now right); try discriminate.
           intros [d Hd']. discriminate.
        -- repeat split; try (now left); try discriminate. now exists data.
      * cbn. rewrite Hb. repeat split; try (now right); try discriminate.
        intros [d Hd']. discriminate.
    + cbn. rewrite Hd. repeat split; try (now right); try discriminate.
      intros [d Hd']. discriminate.
  - unfold script. rewrite Ht, Hi. cbn. rewrite Hst.
    repeat split; try (now right); try discriminate. intros [d Hd']. discriminate.
  - unfold script. rewrite Ht. cbn. rewrite Hst.
    repeat split; try (now right); try discriminate. intros [d Hd']. discriminate.
Qed.

(** X8 on a run that fetches one task. *)
Lemma X_exit_zero_iff_written_witness :
  let I := example_inputs (Json (Some [done_at 1699999000000])) in
  (exit_code (script I initial) = Some 0 \/ exit_code (script I initial) = Some 1) /\
  (exit_code (script I initial) = Some 0
   <-> exists data, data_json (script I initial) = Written data) /\
  (data_json (script I initial) = Damaged
   -> exit_code (script I initial) = Some 1 /\ write_error I <> None).
Proof.
  cbv zeta.
  apply (X_exit_zero_iff_written
           (example_inputs (Json (Some [done_at 1699999000000]))) initial).
  reflexivity.
Defined.

(** X9.  The guard of the module: when the token or the team identifier is
    unset or empty, the run prints one line on the error stream and exits
    with status 1; nothing is fetched, the clock is not read and the file is
    not touched. *)
Theorem X_missing_credentials (I : Inputs) (st : State) :
  is_set (TOKEN I) = false \/ is_set (TEAM_ID I) = false ->
  script I st
  = mkState (clock_reads st) (requests st)
      (console st
         ++ [StdErr "❌ Missing CLICKUP_API_TOKEN or CLICKUP_TEAM_ID. Check GitHub Secrets."])
      (data_json st) (Some 1).
Proof.
  intros H. unfold script.
  assert (negb (is_set (TOKEN I)) || negb (is_set (TEAM_ID I)) = true) as ->
    by (destruct H as [-> | ->]; [reflexivity|apply orb_true_r]).
  reflexivity.
Qed.

(** X9 on an empty team identifier. *)
Lemma X_missing_credentials_witness :
  let I := mkInputs (mkEnv (Some "pk_token") (Some "") (Some "42") (Some "43"))
                    (fun _ => 0) (fun _ => 0)
                    (fun _ => Json (Some [done_at 5])) true None in
  script I initial
  = mkState 0 []
      [StdErr "❌ Missing CLICKUP_API_TOKEN or CLICKUP_TEAM_ID. Check GitHub Secrets."]
      Untouched (Some 1).
Proof.
  cbv zeta.
  apply (X_missing_credentials
           (mkInputs (mkEnv (Some "pk_token") (Some "") (Some "42") (Some "43"))
                     (fun _ => 0) (fun _ => 0)
                     (fun _ => Json (Some [done_at 5])) true None) initial).
  right. reflexivity.
Defined.

(** X10.  [CLICKUP_TEAM_ID] is required by the guard and used nowhere else:
    two runs that differ only in its value, set in both, end in the same
    state. *)
Theorem X_team_id_unused (I : Inputs) (v1 v2 : option string) (st : State) :
  is_set v1 = true -> is_set v2 = true ->
  script (with_team_id I v1) st = script (with_team_id I v2) st.
Proof.
  intros H1 H2. unfold script.
  change (TEAM_ID (with_team_id I v1)) with v1.
  change (TEAM_ID (with_team_id I v2)) with v2.
  change (TOKEN (with_team_id I v1)) with (TOKEN I).
  change (TOKEN (with_team_id I v2)) with (TOKEN I).
  rewrite H1, H2.
  change (main (with_team_id I v1) st) with (main (with_team_id I v2) st).
  reflexivity.
Qed.

(** X10 on two team identifiers. *)
Lemma X_team_id_unused_witness :
  script (with_team_id (example_inputs (Json None)) (Some "9001")) initial
  = script (with_team_id (example_inputs (Json None)) (Some "another")) initial.
Proof.
  apply (X_team_id_unused (example_inputs (Json None)) (Some "9001") (Some "another"));
    reflexivity.
Defined.

(** X11.  When fetch and aggregation succeed and the write throws, the run
    reports the error of the write, exits with status 1, and the file is no
    longer what it was; the confirmation and the summaries are not printed. *)
Theorem X_write_failure (I : Inputs) (st st1 : State)
    (ranges : list (string * Snapshot.t)) (data : Report.t) (err : Error) :
  is_set (TOKEN I) = true -> is_set (TEAM_ID I) = true ->
  fetch_and_aggregate I st = (Ok (ranges, data), st1) ->
  write_error I = Some err ->
  exit_code (script I st) = Some 1 /\
  console (script I st)
  = (console st1 ++ [StdErr ("❌ Update failed: " ++ message err)])%list /\
  data_json (script I st) = Damaged.
Proof.
  intros Ht Hi Hf Hw. unfold script. rewrite Ht, Hi. cbn [negb orb].
  unfold main, bind. rewrite Hf. unfold writeFileSync. rewrite Hw.
  cbn [snd console_error process_exit exit_code console data_json].
  repeat split.
Qed.

(** X7 on a run that fetches one task. *)
Lemma X_success_trace_witness :
  let I := example_inputs (Json (Some [done_at 1699999000000])) in
  exists F B data,
    fst (fetch_all I (snd (console_log "🔄 Fetching ClickUp data…" initial))) = Ok (F, B) /\
    data_json (script I initial) = Written data /\
    console (script I initial)
    = (console initial ++ success_lines F B (Report.ranges data))%list /\
    clock_reads (script I initial) = (clock_reads initial + 6)%nat /\
    Date_toISOString (IVal (clock I (clock_reads initial + 5)%nat))
    = Some (Report.lastUpdated data).
Proof.
  cbv zeta.
  apply (X_success_trace (example_inputs (Json (Some [done_at 1699999000000]))) initial).
  vm_compute. reflexivity.
Defined.

(** X11 on a file system that refuses the write. *)
Lemma X_write_failure_witness :
  let I := mkInputs (mkEnv (Some "pk_token") (Some "9001") (Some "42") None)
                    (fun n => 1700000000000 + Z.of_nat n)
                    (fun _ => 1672531200000)
                    (fun _ => Json None)
                    true (Some (mkError "EACCES: permission denied")) in
  exit_code (script I initial) = Some 1 /\ data_json (script I initial) = Damaged.
Proof.
  cbv zeta.
  destruct (fetch_and_aggregate
              (mkInputs (mkEnv (Some "pk_token") (Some "9001") (Some "42") None)
                        (fun n => 1700000000000 + Z.of_nat n)
                        (fun _ => 1672531200000)
                        (fun _ => Json None)
                        true (Some (mkError "EACCES: permission denied")))
              initial) as [[[ranges data]|e] st1] eqn:E.
  - match type of E with
    | fetch_and_aggregate ?I _ = _ =>
        destruct (X_write_failure I initial st1 ranges data
                    (mkError "EACCES: permission denied") eq_refl eq_refl E eq_refl)
          as (H1 & _ & H3)
    end.
    split; assumption.
  - vm_compute in E. discriminate.
Defined.

(** ** The recent-activity list *)





(** X13.  The sort keeps a list that is already in descending order of
    closure time: tasks closed at the same instant stay in the order in
    which they were fetched, features before bugs. *)
Theorem X_sorted_input_kept (l : list Task.t) :
  Forall numeric_closure l -> closed_descending l ->
  Array_sort byClosedDesc l = l.
Proof.
  induction l as [|x l IH]; intros Hn Hd; [reflexivity|].
  inversion Hn as [|? ? Hx Hl]; subst. destruct Hd as [Hmax Hd].
  cbn [Array_sort]. rewrite (IH Hl Hd).
  destruct l as [|y l']; [reflexivity|].
  cbn [sort_insert]. inversion Hl as [|? ? Hy _]; subst.
  rewrite (sorts_before_numeric _ _ Hx Hy).
  replace (closed_ms y <=? closed_ms x) with true; [reflexivity|].
  symmetry. apply Z.leb_le. apply Hmax. now left.
Qed.

(** X13 on two tasks closed at the same instant. *)
Lemma X_sorted_input_kept_witness :
  let a := labelled (JString "a", JNull, JNull) "done" (JString "7") in
  let b := labelled (JString "b", JNull, JNull) "done" (JString "7") in
  Array_sort byClosedDesc [done_at 9; a; b] = [done_at 9; a; b].
Proof.
  cbv zeta. apply X_sorted_input_kept.
  - repeat constructor; vm_compute; discriminate.
  - cbn [closed_descending]. repeat split; intros u Hu; cbn [In] in Hu;
      repeat (destruct Hu as [<-|Hu]; [vm_compute; discriminate|]); destruct Hu.
Defined.

(** X14.  The recent-activity list has five entries, or as many as there
    are done tasks with a closure field if these are fewer. *)
Theorem X_recent_length (allFeatureTasks allBugTasks : list Task.t)
    (entries : list RecentEntry.t) :
  recentActivity allFeatureTasks allBugTasks = Ok entries ->
  List.length entries
  = Nat.min 5 (List.length (filter isRecentCandidate (allFeatureTasks ++ allBugTasks))).
Proof.
  unfold recentActivity, recentTasks. intros H.
  apply Array_map_throwing_ok in H. rewrite <- (Forall2_length H).
  rewrite length_firstn.
  now rewrite <- (Permutation_length (Array_sort_perm byClosedDesc _)).
Qed.

(** X14 on seven closed tasks. *)
Lemma X_recent_length_witness :
  exists entries,
    recentActivity (map done_at [1; 2; 3; 4]) (map done_at [5; 6; 7]) = Ok entries /\
    List.length entries = 5%nat.
Proof.
  destruct (recentActivity (map done_at [1; 2; 3; 4]) (map done_at [5; 6; 7]))
    as [entries|e] eqn:E.
  - exists entries. split; [reflexivity|].
    apply (X_recent_length (map done_at [1; 2; 3; 4]) (map done_at [5; 6; 7]) entries E).
  - vm_compute in E. discriminate.
Defined.

(** ** The ranges of the document *)

(** X15.  Each cutoff is taken from its own reading of the clock.  When
    the five readings lie within a day of each other the windows are nested:
    what was shipped, closed, resolved or created today is counted in the
    7-day range, that in the 30-day range, and that in the 90-day range. *)
Theorem X_nested_windows (I : Inputs) (allFeatureTasks allBugTasks : list Task.t)
    (st : State) :
  cutoffs_within_a_day I (clock_reads st) ->
  exists today d7 d30 d90 ytd,
    fst (compute_ranges I allFeatureTasks allBugTasks st)
    = Ok [("today", today); ("7d", d7); ("30d", d30); ("90d", d90); ("ytd", ytd)] /\
    counts_within today d7 /\ counts_within d7 d30 /\ counts_within d30 d90.
Proof.
  intros Hday. rewrite compute_ranges_eq. cbn [fst window_cutoffs map combine window_names].
  do 5 eexists. split; [reflexivity|].
  set (n := clock_reads st) in *.
  assert (H01 : clock I (S n) - clock I n <= msPerDay) by (apply Hday; lia).
  assert (H12 : clock I (S (S n)) - clock I (S n) <= msPerDay) by (apply Hday; lia).
  assert (H23 : clock I (S (S (S n))) - clock I (S (S n)) <= msPerDay) by (apply Hday; lia).
  unfold msPerDay in *.
  repeat split;
    first [ apply Array_length_filter_impl; intros t;
            first [apply closedInRange_earlier | apply createdInRange_earlier]; lia ].
Qed.

(** X15 on a clock that advances a millisecond per reading. *)
Lemma X_nested_windows_witness :
  exists today d7 d30 d90 ytd,
    fst (compute_ranges (example_inputs (Json None))
           [done_at 1699999000000] [done_at 1699000000000] initial)
    = Ok [("today", today); ("7d", d7); ("30d", d30); ("90d", d90); ("ytd", ytd)] /\
    counts_within today d7 /\ counts_within d7 d30 /\ counts_within d30 d90.
Proof.
  apply (X_nested_windows (example_inputs (Json None))
           [done_at 1699999000000] [done_at 1699000000000] initial).
  intros i j Hi Hj. cbn [example_inputs clock clock_reads initial] in *.
  unfold msPerDay. lia.
Defined.

(** X16.  The [stats] and [bugs] at the top level of the document are those
    of the 7-day range, and they are what the earlier revision of the script
    computed for the cutoff of seven days before the second clock reading. *)
Theorem X_top_level_is_seven_days (I : Inputs) (allFeatureTasks allBugTasks : list Task.t)
    (st st' : State) (ranges : list (string * Snapshot.t)) (data : Report.t) :
  build_data I allFeatureTasks allBugTasks st = (Ok (ranges, data), st') ->
  let sevenDaysAgo := clock I (S (clock_reads st)) - 7 * 24 * 60 * 60 * 1000 in
  obj_get "7d" (Report.ranges data)
  = Some (Snapshot.mk (Report.stats data) (Report.bugs data)) /\
  (Report.stats data, Report.bugs data)
  = Part000.main_stats allFeatureTasks allBugTasks sevenDaysAgo.
Proof.
  intros H. cbv zeta. apply build_data_ok in H as (Hr & Hd & _ & Hs & Hb & _).
  rewrite Hd, Hr, Hs, Hb. split; reflexivity.
Qed.

(** X16 on two closed tasks. *)
Lemma X_top_level_is_seven_days_witness :
  exists data,
    obj_get "7d" (Report.ranges data)
    = Some (Snapshot.mk (Report.stats data) (Report.bugs data)) /\
    (Report.stats data, Report.bugs data)
    = Part000.main_stats [done_at 1699999000000] [done_at 1699000000000]
        (1700000000001 - 7 * 24 * 60 * 60 * 1000).
Proof.
  destruct (build_data (example_inputs (Json None))
              [done_at 1699999000000] [done_at 1699000000000] initial)
    as [[[ranges data]|e] st'] eqn:E.
  - exists data.
    apply (X_top_level_is_seven_days (example_inputs (Json None))
             [done_at 1699999000000] [done_at 1699000000000] initial st' ranges data E).
  - vm_compute in E. discriminate.
Defined.

(** [build_data] returns as soon as the recent-activity list is built and
    the clock shows a representable time. *)
Lemma build_data_returns I F B st recent iso :
  recentActivity F B = Ok recent ->
  Date_toISOString (IVal (clock I (clock_reads st + 5)%nat)) = Some iso ->
  let ranges :=
    combine window_names (map (computeStats F B) (window_cutoffs I (clock_reads st))) in
  let r7 := computeStats F B (clock I (S (clock_reads st)) - 7 * 24 * 60 * 60 * 1000) in
  build_data I F B st
  = (Ok (ranges, Report.mk iso (Snapshot.stats r7) (Snapshot.bugs r7) ranges recent),
     mkState (clock_reads st + 6) (requests st) (console st) (data_json st)
             (exit_code st)).
Proof.
  intros Hr Hiso. cbv zeta.
  replace (clock_reads st + 5)%nat with (S (S (S (S (S (clock_reads st)))))) in Hiso by lia.
  replace (clock_reads st + 6)%nat with (S (S (S (S (S (S (clock_reads st))))))) by lia.
  unfold build_data, compute_ranges, daysAgo, startOfYear, now_iso, Date_now,
    bind, ret, lift, throw.
  cbn [clock_reads requests console data_json exit_code].
  rewrite Hr, Hiso.
  cbn [obj_get String.eqb Ascii.eqb Bool.eqb]. reflexivity.
Qed.

(** X17.  With the credentials set and neither list configured the run
    sends no request and still succeeds: it writes a document in which every
    range holds zero counters and a pass rate of 100, and the recent-activity
    list is empty. *)
Theorem X_unconfigured_lists (I : Inputs) (st : State) (iso : string) :
  is_set (TOKEN I) = true -> is_set (TEAM_ID I) = true ->
  is_set (FEATURES_LIST I) = false -> is_set (BUGS_LIST I) = false ->
  write_error I = None ->
  Date_toISOString (IVal (clock I (clock_reads st + 5)%nat)) = Some iso ->
  exit_code (script I st) = Some 0 /\
  requests (script I st) = requests st /\
  data_json (script I st)
  = Written (Report.mk iso (Snapshot.stats empty_snapshot) (Snapshot.bugs empty_snapshot)
               (map (fun name => (name, empty_snapshot)) window_names) []).
Proof.
  intros Ht Hi Hf Hb Hw Hiso.
  rewrite (script_stages I st Ht Hi). cbv zeta.
  set (s0 := snd (console_log "🔄 Fetching ClickUp data…" st)).
  assert (fetch_all I s0 = (Ok ([], []), s0)) as ->
    by (unfold fetch_all, Promise_all2, getListTasks; now rewrite Hf, Hb).
  match goal with
  | |- context [build_data I [] [] ?s] =>
      rewrite (build_data_returns I [] [] s [] iso eq_refl Hiso), Hw
  end.
  cbn [exit_code requests data_json]. repeat split.
Qed.

(** X17 on an upstream that would answer 500. *)
Lemma X_unconfigured_lists_witness :
  let I := mkInputs (mkEnv (Some "pk_token") (Some "9001") None (Some ""))
                    (fun n => 1700000000000 + Z.of_nat n)
                    (fun _ => 1672531200000)
                    (fun _ => NotOk 500 "unreachable")
                    true None in
  exit_code (script I initial) = Some 0 /\
  requests (script I initial) = [] /\
  data_json (script I initial)
  = Written (Report.mk "2023-11-14T22:13:20.005Z"
               (Snapshot.stats empty_snapshot) (Snapshot.bugs empty_snapshot)
               (map (fun name => (name, empty_snapshot)) window_names) []).
Proof.
  cbv zeta.
  apply (X_unconfigured_lists
           (mkInputs (mkEnv (Some "pk_token") (Some "9001") None (Some ""))
                     (fun n => 1700000000000 + Z.of_nat n)
                     (fun _ => 1672531200000)
                     (fun _ => NotOk 500 "unreachable")
                     true None)
           initial "2023-11-14T22:13:20.005Z"); reflexivity.
Defined.

(** ** Runs that succeed *)





